(** * Tapas comic downloader (tapas-dl.py): a shallow embedding and its properties

    The script is embedded function by function.  Python [str] values are
    modelled by [string] (the UTF-8 bytes of the text: every character the
    script inspects is ASCII, so filtering, searching and splitting on bytes
    agree with the same operations on code points), Python [int] by [Z],
    exceptions by an error result, and the side effects of the main loop
    (file system, HTTP requests) by a state monad over an explicit [world]. *)

From Stdlib Require Import ZArith Ascii String List Lia.
From stdpp Require Import base gmap strings list.

Local Open Scope Z_scope.

(** ** Exceptions and results *)

Inductive exn : Type :=
| IndexError
| ValueError
| RequestException.

Inductive result (A : Type) : Type :=
| Ok (a : A)
| Raise (e : exn).
Arguments Ok {A} a.
Arguments Raise {A} e.

Definition res_bind {A B} (r : result A) (k : A -> result B) : result B :=
  match r with
  | Ok a => k a
  | Raise e => Raise e
  end.

#[global] Instance result_ret : MRet result := @Ok.
#[global] Instance result_bind : MBind result :=
  fun A B k r => res_bind r k.

(** ** Python string builtins used by the script *)

Module Py.

(** [c in chars] for a list of one-character strings. *)
Definition char_in (c : ascii) (chars : list ascii) : bool :=
  existsb (Ascii.eqb c) chars.

(** [''.join([char for char in s if keep char])]. *)
Fixpoint filter_chars (keep : ascii -> bool) (s : string) : string :=
  match s with
  | EmptyString => EmptyString
  | String c s' =>
      if keep c then String c (filter_chars keep s') else filter_chars keep s'
  end.

Fixpoint repeat_char (c : ascii) (n : nat) : string :=
  match n with
  | O => EmptyString
  | S n' => String c (repeat_char c n')
  end.

Definition digit_char (d : nat) : ascii :=
  match d with
  | 0%nat => "0" | 1%nat => "1" | 2%nat => "2" | 3%nat => "3" | 4%nat => "4"
  | 5%nat => "5" | 6%nat => "6" | 7%nat => "7" | 8%nat => "8" | _ => "9"
  end%char.

(** Decimal digits of a non-negative integer, most significant first.
    The fuel bounds the number of divisions by ten; a number has no more
    decimal digits than binary ones. *)
Fixpoint digits_fuel (fuel : nat) (n : Z) (acc : string) : string :=
  match fuel with
  | O => acc
  | S fuel' =>
      let acc' := String (digit_char (Z.to_nat (n mod 10))) acc in
      if n <? 10 then acc' else digits_fuel fuel' (n / 10) acc'
  end.

Definition digits (n : Z) : string :=
  digits_fuel (S (Z.to_nat (Z.log2 n))) n EmptyString.

(** [str(n)] for an [int]. *)
Definition str_of_int (n : Z) : string :=
  if n <? 0 then String "-"%char (digits (- n)) else digits n.

(** [s.zfill(width)]: pad with zeros on the left, after a leading sign. *)
Definition zfill (s : string) (width : nat) : string :=
  if (width <=? String.length s)%nat then s
  else
    let fill := repeat_char "0"%char (width - String.length s) in
    match s with
    | String c rest =>
        if (Ascii.eqb c "+" || Ascii.eqb c "-")%char
        then String c (fill +:+ rest)
        else fill +:+ s
    | EmptyString => fill
    end.

(** [s.startswith(p)]. *)
Definition startswith (s p : string) : bool := String.prefix p s.

(** [s.find(sep)]: index of the first occurrence of [sep], if any. *)
Fixpoint find (sep s : string) : option nat :=
  if String.prefix sep s then Some 0%nat
  else
    match s with
    | EmptyString => None
    | String _ s' => option_map S (find sep s')
    end.

Fixpoint take (n : nat) (s : string) : string :=
  match n, s with
  | S n', String c s' => String c (take n' s')
  | _, _ => EmptyString
  end.

Fixpoint drop (n : nat) (s : string) : string :=
  match n, s with
  | S n', String _ s' => drop n' s'
  | _, _ => s
  end.

(** [s.split(sep)] for a non-empty separator: cut at the successive
    non-overlapping occurrences of [sep], scanning from the left.  Each cut
    consumes at least one character, so [length s] rounds suffice. *)
Fixpoint split_fuel (fuel : nat) (sep s : string) : list string :=
  match fuel with
  | O => [s]
  | S fuel' =>
      match find sep s with
      | None => [s]
      | Some i =>
          take i s :: split_fuel fuel' sep (drop (i + String.length sep) s)
      end
  end.

Definition split (s sep : string) : list string :=
  split_fuel (String.length s) sep s.

(** [l[i]] for a non-negative index. *)
Definition subscript {A} (l : list A) (i : nat) : result A :=
  match nth_error l i with
  | Some a => Ok a
  | None => Raise IndexError
  end.

(** [sep.join(l)]. *)
Definition join (sep : string) (l : list string) : string :=
  String.concat sep l.

End Py.

(** ** Helpers (lines 14-24) *)

(** [def lead0(num, max): return str(num).zfill(len(str(max)))] *)
Definition lead0 (num max : Z) : string :=
  Py.zfill (Py.str_of_int num) (String.length (Py.str_of_int max)).

(** The characters stripped under [fat]; the eighth is the double quote. *)
Definition fat_chars : list ascii :=
  ["?"; "<"; ">"; "\"; ":"; "*"; "|"; "034"; "^"]%char.

(** [def check_path(path, slash=True, fat=False)] *)
Definition check_path (path : string) (slash fat : bool) : string :=
  let evil_chars :=
    (if slash then ["/"%char] else []) ++ (if fat then fat_chars else []) in
  Py.filter_chars (fun char => negb (Py.char_in char evil_chars)) path.

(** ** Tapas API helpers (lines 79-135) *)

(** [def get_series_id(url_or_name)] *)
Definition get_series_id (url_or_name : string) : result string :=
  if Py.startswith url_or_name "http" then
    after ← Py.subscript (Py.split url_or_name "/series/") 1;
    Py.subscript (Py.split after "/") 0
  else Ok url_or_name.

(** *** The remote service and the rendered episode page

    [pq(html)] is abstracted by what the two selectors of the script see: the
    attributes of the [img.content__img] elements and the text of the
    [article.viewer__body p] elements, both in document order. *)

Record img_element : Type := {
  attr_src : option string;
  attr_data_src : option string;
}.

Record html : Type := {
  content_imgs : list img_element;
  body_paras : list string;
}.

Record episode : Type := {
  ep_id : Z;
  ep_title : string;
}.

Record series : Type := {
  title : string;
  creator_name : string;
  entries : list episode;
}.

(** What the script cannot compute by itself: the [int()] builtin on the
    series identifier and the answers of the remote host.  A request either
    raises or returns; an answer that returns has the shape the script reads
    ([title], [creator.name], [episodes.entries] with [id] and [title]). *)
Record env : Type := {
  py_int : string -> option Z;
  post_graphql : Z -> result series;
  get_episode : Z -> result html;
  get_image : string -> result string;
}.

(** Command line options read by the main loop; [basePath] stands for
    [Path(args.baseDir) if args.baseDir else Path(".")] (line 141). *)
Record args : Type := {
  url : list string;
  force : bool;
  restrict_characters : bool;
  basePath : list string;
}.

(** *** The world: file system and request log

    A [Path] is its list of segments; [p / name] appends one segment (every
    name the script joins went through [check_path], so it has no slash).
    A file holds the string that was written to it.  Writes are assumed to
    succeed, and printing is left out. *)

Abbreviation path := (list string).

Inductive request : Type :=
| ReqSeries (series_id : Z)
| ReqEpisode (ep_id : Z)
| ReqImage (img_url : string).

Record world : Type := {
  dirs : gset path;
  files : gmap path string;
  requests : list request;
}.

Definition M (A : Type) : Type := world -> result A * world.

#[global] Instance M_ret : MRet M := fun A a w => (Ok a, w).
#[global] Instance M_bind : MBind M := fun A B k c w =>
  match c w with
  | (Ok a, w') => k a w'
  | (Raise e, w') => (Raise e, w')
  end.

Definition raise {A} (e : exn) : M A := fun w => (Raise e, w).

Definition lift {A} (r : result A) : M A := fun w => (r, w).

(** [try: c except Exception: ...]: the outcome of [c] as a value. *)
Definition try_except {A} (c : M A) : M (result A) :=
  fun w => let (r, w') := c w in (Ok r, w').

Definition log_request (r : request) (w : world) : world :=
  {| dirs := dirs w; files := files w; requests := requests w ++ [r] |}.

Definition put_file (p : path) (data : string) (w : world) : world :=
  {| dirs := dirs w; files := <[p := data]> (files w);
     requests := requests w |}.

Fixpoint ancestors (p : path) : list path :=
  match p with
  | [] => [[]]
  | name :: p' => [] :: map (cons name) (ancestors p')
  end.

Definition make_dirs (p : path) (w : world) : world :=
  {| dirs := list_to_set (ancestors p) ∪ dirs w; files := files w;
     requests := requests w |}.

Definition file_exists (p : path) (w : world) : bool :=
  bool_decide (p ∈ dirs w) || bool_decide (is_Some (files w !! p)).

(** An HTTP request leaves the session: it is logged before it is answered. *)
Definition send (r : request) : M unit := fun w => (Ok tt, log_request r w).

(** [p.exists()] *)
Definition path_exists (p : path) : M bool :=
  fun w => (Ok (file_exists p w), w).

(** [p.mkdir(parents=True)] *)
Definition mkdir (p : path) : M unit := fun w => (Ok tt, make_dirs p w).

(** [with open(p, mode) as f: f.write(data)] for the modes ["w"], ["wb"]. *)
Definition write_file (p : path) (data : string) : M unit :=
  fun w => (Ok tt, put_file p data w).

Fixpoint for_each {A} (body : A -> M unit) (l : list A) : M unit :=
  match l with
  | [] => mret tt
  | x :: l' => _ ← body x; for_each body l'
  end.

(** [for i, x in enumerate(l, start): body] *)
Fixpoint for_enumerate {A} (body : Z -> A -> M unit) (start : Z) (l : list A)
  : M unit :=
  match l with
  | [] => mret tt
  | x :: l' => _ ← body start x; for_enumerate body (start + 1) l'
  end.

Definition len {A} (l : list A) : Z := Z.of_nat (length l).

Section Script.

Variable E : env.
Variable a : args.

(** [def fetch_series(series_id)] *)
Definition fetch_series (series_id : string) : M series :=
  match py_int E series_id with
  | None => raise ValueError
  | Some n => _ ← send (ReqSeries n); lift (post_graphql E n)
  end.

(** [def fetch_episode_content(ep_id)] *)
Definition fetch_episode_content (id : Z) : M html :=
  _ ← send (ReqEpisode id); lift (get_episode E id).

(** [pq(img).attr("src") or pq(img).attr("data-src")] *)
Definition src_of (img : img_element) : option string :=
  match attr_src img with
  | Some (String c s) => Some (String c s)
  | _ => attr_data_src img
  end.

(** [def parse_comic_images(html)] *)
Fixpoint parse_comic_images_loop (elems : list img_element)
    (imgs : list string) : list string :=
  match elems with
  | [] => imgs
  | img :: elems' =>
      match src_of img with
      | Some (String c s) =>
          parse_comic_images_loop elems'
            (imgs ++ [List.hd EmptyString (Py.split (String c s) "?")])
      | _ => parse_comic_images_loop elems' imgs
      end
  end.

Definition parse_comic_images (doc : html) : list string :=
  parse_comic_images_loop (content_imgs doc) [].

(** [def parse_novel_text(html)] *)
Fixpoint parse_novel_text_loop (ps : list string) (paras : list string)
  : list string :=
  match ps with
  | [] => paras
  | txt :: ps' =>
      match txt with
      | String _ _ => parse_novel_text_loop ps' (paras ++ [txt])
      | EmptyString => parse_novel_text_loop ps' paras
      end
  end.

Definition newline2 : string :=
  String "010"%char (String "010"%char EmptyString).

Definition parse_novel_text (doc : html) : string :=
  Py.join newline2 (parse_novel_text_loop (body_paras doc) []).

(** *** Main loop (lines 143-196) *)

(** The f-string of line 180, sanitised. *)
Definition image_fname (ep_idx n_eps img_idx n_imgs : Z)
    (ep_title img_url : string) : string :=
  check_path
    (lead0 ep_idx n_eps +:+ " - " +:+ lead0 img_idx n_imgs +:+ " - "
       +:+ ep_title +:+ "." +:+ List.last (Py.split img_url ".") EmptyString)
    true (restrict_characters a).

(** The f-string of line 191, sanitised. *)
Definition prose_fname (ep_idx n_eps : Z) (ep_title : string) : string :=
  check_path (lead0 ep_idx n_eps +:+ " - " +:+ ep_title +:+ ".txt")
    true (restrict_characters a).

(** Body of the image loop (lines 179-187). *)
Definition save_image (savePath : path) (ep_idx n_eps n_imgs : Z)
    (ep_title : string) (img_idx : Z) (img_url : string) : M unit :=
  let fname := image_fname ep_idx n_eps img_idx n_imgs ep_title img_url in
  let fpath := savePath ++ [fname] in
  ex ← path_exists fpath;
  if negb ex then
    imgdata ← (_ ← send (ReqImage img_url); lift (get_image E img_url));
    write_file fpath imgdata
  else mret tt.

(** The two branches of [if imgs:] (lines 176-194). *)
Definition save_images (savePath : path) (ep_idx n_eps : Z)
    (ep_title : string) (imgs : list string) : M unit :=
  for_enumerate (save_image savePath ep_idx n_eps (len imgs) ep_title) 1 imgs.

Definition save_novel (savePath : path) (ep_idx n_eps : Z)
    (ep_title : string) (doc : html) : M unit :=
  let text := parse_novel_text doc in
  let fname := prose_fname ep_idx n_eps ep_title in
  write_file (savePath ++ [fname]) text.

Definition save_episode (savePath : path) (ep_idx n_eps : Z)
    (ep_title : string) (doc : html) : M unit :=
  let imgs := parse_comic_images doc in
  match imgs with
  | _ :: _ => save_images savePath ep_idx n_eps ep_title imgs
  | [] => save_novel savePath ep_idx n_eps ep_title doc
  end.

(** Body of the episode loop (lines 167-194). *)
Definition download_episode (savePath : path) (n_eps : Z)
    (ep_idx : Z) (ep : episode) : M unit :=
  doc ← fetch_episode_content (ep_id ep);
  save_episode savePath ep_idx n_eps (ep_title ep) doc.

Definition download_episodes (savePath : path) (episodes : list episode)
  : M unit :=
  for_enumerate (download_episode savePath (len episodes)) 1 episodes.

Definition save_path (name seriesName : string) : path :=
  basePath a ++
    [check_path (name +:+ " [" +:+ seriesName +:+ "]")
       true (restrict_characters a)].

(** Body of the loop over [args.url] (lines 144-196); [continue] returns. *)
Definition process_series (u : string) : M unit :=
  seriesName ← lift (get_series_id u);
  fetched ← try_except (fetch_series seriesName);
  match fetched with
  | Raise _ => mret tt
  | Ok ser =>
      let episodes := entries ser in
      let savePath := save_path (title ser) seriesName in
      ex ← path_exists savePath;
      if negb ex then
        _ ← mkdir savePath; download_episodes savePath episodes
      else if negb (force a) then mret tt
      else download_episodes savePath episodes
  end.

Definition main : M unit := for_each process_series (url a).

End Script.

(** ** Vocabulary of the statements *)

(** Number of occurrences of a character in a string. *)
Fixpoint count_char (c : ascii) (s : string) : nat :=
  match s with
  | EmptyString => 0%nat
  | String c' s' => ((if Ascii.eqb c c' then 1 else 0) + count_char c s')%nat
  end.

(** The characters the sanitizer deletes under a given option setting. *)
Definition removed (fat : bool) (c : ascii) : bool :=
  Ascii.eqb c "/" || (fat && Py.char_in c fat_chars).

(** Value of a string of decimal digits, read left to right. *)
Definition digit_value (c : ascii) : Z := Z.of_nat (nat_of_ascii c) - 48.

Fixpoint decimal_value_from (acc : Z) (s : string) : Z :=
  match s with
  | EmptyString => acc
  | String c s' => decimal_value_from (10 * acc + digit_value c) s'
  end.

Definition decimal_value (s : string) : Z := decimal_value_from 0 s.

(** The resolver as the specification words it: the segment after the series
    marker up to the next slash when the marker occurs, the input otherwise. *)
Fixpoint until_slash (s : string) : string :=
  match s with
  | EmptyString => EmptyString
  | String c s' => if Ascii.eqb c "/" then EmptyString else String c (until_slash s')
  end.

(** Follows the specification's words, to be compared with
    [get_series_id]. *)
Definition spec_series_resolver (s : string) : string :=
  match Py.find "/series/" s with
  | Some i => until_slash (Py.drop (i + 8) s)
  | None => s
  end.

(** File names as the specification words them: the parts joined by single
    hyphens. *)
Definition spec_image_fname (ep_idx n_eps img_idx n_imgs : Z)
    (ep_title ext : string) : string :=
  lead0 ep_idx n_eps +:+ "-" +:+ lead0 img_idx n_imgs +:+ "-" +:+ ep_title
  +:+ "." +:+ ext.

Definition spec_prose_fname (ep_idx n_eps : Z) (ep_title : string) : string :=
  lead0 ep_idx n_eps +:+ "-" +:+ ep_title +:+ ".txt".

(** ** A small remote host for the examples

    Series 7 has three episodes: a gallery of two images, a text of two
    paragraphs around an empty one, and an episode whose page cannot be
    fetched.  Series 8 has one text episode. *)

Definition example_gallery : html :=
  {| content_imgs :=
       [ {| attr_src := Some "http://h/a.png?x=1"; attr_data_src := None |};
         {| attr_src := None; attr_data_src := Some "http://h/b.jpg" |} ];
     body_paras := ["caption"] |}.

Definition example_text : html :=
  {| content_imgs := []; body_paras := ["one"; ""; "two"] |}.

Definition example_series7 : series :=
  {| title := "My/Comic"; creator_name := "me";
     entries := [ {| ep_id := 1; ep_title := "A" |};
                  {| ep_id := 2; ep_title := "B" |};
                  {| ep_id := 3; ep_title := "C" |} ] |}.

Definition example_series8 : series :=
  {| title := "Other"; creator_name := "you";
     entries := [ {| ep_id := 2; ep_title := "B" |} ] |}.

Definition example_env : env :=
  {| py_int := fun s =>
       if String.eqb s "7" then Some 7
       else if String.eqb s "8" then Some 8 else None;
     post_graphql := fun n =>
       if n =? 7 then Ok example_series7
       else if n =? 8 then Ok example_series8 else Raise RequestException;
     get_episode := fun n =>
       if n =? 1 then Ok example_gallery
       else if n =? 2 then Ok example_text else Raise RequestException;
     get_image := fun u => Ok ("bytes of " +:+ u) |}.

Definition example_args : args :=
  {| url := ["7"; "8"]; force := false; restrict_characters := false;
     basePath := ["out"] |}.

Definition empty_world : world := {| dirs := ∅; files := ∅; requests := [] |}.

Definition is_digit (c : ascii) : bool :=
  Py.char_in c ["0"; "1"; "2"; "3"; "4"; "5"; "6"; "7"; "8"; "9"]%char.

Fixpoint all_chars (P : ascii -> bool) (s : string) : bool :=
  match s with
  | EmptyString => true
  | String c s' => P c && all_chars P s'
  end.

(** The part of a string before the first occurrence of a character. *)
Fixpoint before_char (c : ascii) (s : string) : string :=
  match s with
  | EmptyString => EmptyString
  | String d s' =>
      if Ascii.eqb d c then EmptyString else String d (before_char c s')
  end.

(** What one image element contributes to the gallery, if anything: its
    [src] attribute when that is present and not empty, otherwise its
    [data-src] attribute when that is present and not empty, cut at the first
    question mark. *)
Definition image_url (img : img_element) : option string :=
  match attr_src img with
  | Some (String c s) => Some (before_char "?" (String c s))
  | _ =>
      match attr_data_src img with
      | Some (String c s) => Some (before_char "?" (String c s))
      | _ => None
      end
  end.

(** One world extends another: nothing was deleted and the request log only
    grew at its end. *)
Definition extends (w w' : world) : Prop :=
  dirs w ⊆ dirs w' /\ dom (files w) ⊆ dom (files w') /\
  requests w `prefix_of` requests w'.

(** The episode pages asked for, in the order of the requests. *)
Definition episode_requests (log : list request) : list Z :=
  omap (fun r => match r with ReqEpisode id => Some id | _ => None end) log.

(** An episode is settled in a world when its page can be fetched and what
    the script would store for it is already there: the text file with the
    parsed text, or a file at the path of every image of the gallery. *)
Definition episode_settled (E : env) (a : args) (savePath : path) (n_eps : Z)
    (ep_idx : Z) (ep : episode) (w : world) : Prop :=
  match get_episode E (ep_id ep) with
  | Ok doc =>
      match parse_comic_images doc with
      | [] =>
          files w !! (savePath ++ [prose_fname a ep_idx n_eps (ep_title ep)])
          = Some (parse_novel_text doc)
      | imgs =>
          forall k u, imgs !! k = Some u ->
            file_exists
              (savePath ++
                 [image_fname a ep_idx n_eps (1 + Z.of_nat k) (len imgs)
                    (ep_title ep) u]) w = true
      end
  | Raise _ => False
  end.

(** * Properties *)

Example get_series_id_url :
  get_series_id "https://tapas.io/series/Erma/info" = Ok "Erma".
Proof. reflexivity. Qed.

Example lead0_7_125 : lead0 7 125 = "007".
Proof. reflexivity. Qed.

Example lead0_neg : lead0 (-7) 125 = "-07".
Proof. reflexivity. Qed.

Example check_path_fat :
  check_path "a/b?c: d" true true = "abc d" /\
  check_path "a/b?c: d" true false = "ab?c: d".
Proof. split; reflexivity. Qed.

(** ** Strings *)

Section StringFacts.

Lemma app_cons c (s1 s2 : string) : String c s1 +:+ s2 = String c (s1 +:+ s2).
Proof. reflexivity. Qed.

Lemma app_empty_l (s : string) : "" +:+ s = s.
Proof. reflexivity. Qed.

Lemma app_empty_r (s : string) : s +:+ "" = s.
Proof. induction s as [|c s IH]; [done|]. by rewrite app_cons, IH. Qed.

Lemma app_assoc_str (s1 s2 s3 : string) :
  (s1 +:+ s2) +:+ s3 = s1 +:+ (s2 +:+ s3).
Proof.
  induction s1 as [|c s1 IH]; [done|]. by rewrite !app_cons, IH.
Qed.

Lemma length_app_str (s1 s2 : string) :
  String.length (s1 +:+ s2) = (String.length s1 + String.length s2)%nat.
Proof.
  induction s1 as [|c s1 IH]; [done|]. rewrite app_cons. simpl. by rewrite IH.
Qed.

Lemma length_repeat_char c n : String.length (Py.repeat_char c n) = n.
Proof. induction n as [|n IH]; simpl; [done|]. by rewrite IH. Qed.

Lemma filter_chars_app keep (s1 s2 : string) :
  Py.filter_chars keep (s1 +:+ s2)
  = Py.filter_chars keep s1 +:+ Py.filter_chars keep s2.
Proof.
  induction s1 as [|c s1 IH]; [done|].
  rewrite app_cons. simpl. destruct (keep c); by rewrite ?app_cons, IH.
Qed.

Lemma filter_chars_idem keep (s : string) :
  Py.filter_chars keep (Py.filter_chars keep s) = Py.filter_chars keep s.
Proof.
  induction s as [|c s IH]; [done|]. simpl.
  destruct (keep c) eqn:Hc; simpl; by rewrite ?Hc, IH.
Qed.

Lemma count_char_filter keep c (s : string) :
  count_char c (Py.filter_chars keep s)
  = if keep c then count_char c s else 0%nat.
Proof.
  induction s as [|c' s IH]; simpl; [by destruct (keep c)|].
  destruct (Ascii.eqb_spec c c') as [<-|Hne].
  - destruct (keep c) eqn:Hc; simpl; rewrite IH, ?Ascii.eqb_refl; done.
  - destruct (keep c'); simpl; rewrite IH;
      [destruct (Ascii.eqb_spec c c'); [done|]|]; by destruct (keep c).
Qed.

Lemma filter_chars_sublist keep (s : string) :
  sublist (list_ascii_of_string (Py.filter_chars keep s))
          (list_ascii_of_string s).
Proof.
  induction s as [|c s IH]; simpl; [constructor|].
  destruct (keep c); simpl; by constructor.
Qed.

(** A string without deleted characters is left alone. *)
Lemma filter_chars_id keep (s : string) :
  (forall c, count_char c s <> 0%nat -> keep c = true) ->
  Py.filter_chars keep s = s.
Proof.
  induction s as [|c s IH]; intros Hk; [done|]. simpl.
  rewrite (Hk c) by (simpl; rewrite Ascii.eqb_refl; lia).
  f_equal. apply IH. intros c' Hc'. apply Hk. simpl. lia.
Qed.

End StringFacts.

(** ** PathSanitizer *)

Lemma check_path_keep (path : string) (fat : bool) :
  check_path path true fat
  = Py.filter_chars (fun c => negb (removed fat c)) path.
Proof. unfold check_path, removed. by destruct fat. Qed.

Example removed_table :
  removed false "/" = true /\ removed true "/" = true /\
  forallb (removed true) fat_chars = true /\
  forallb (fun c => negb (removed false c)) fat_chars = true /\
  removed true "a" = false /\ removed true "-" = false.
Proof. repeat split; reflexivity. Qed.

(** C7. With the default [slash], [check_path] deletes every occurrence of
    the slash under either setting of the restrict option; it deletes every
    occurrence of each of the nine characters
    [? < > \ : * | ^] and the double quote (code 034) exactly when the
    restrict option is on; it keeps every other character with its
    multiplicity and in its order; and applying it twice under one setting is
    the same as applying it once. *)
Theorem check_path_sanitizer (path : string) (slash fat : bool) :
  (forall c,
      count_char c (check_path path true fat)
      = if Ascii.eqb c "/"
           || (fat && existsb (Ascii.eqb c)
                        ["?"; "<"; ">"; "\"; ":"; "*"; "|"; "034"; "^"]%char)
        then 0%nat else count_char c path) /\
  sublist (list_ascii_of_string (check_path path true fat))
          (list_ascii_of_string path) /\
  check_path (check_path path slash fat) slash fat = check_path path slash fat.
Proof.
  split; [|split].
  - intros c. rewrite check_path_keep, count_char_filter.
    unfold removed, Py.char_in, fat_chars. by destruct (_ || _).
  - rewrite check_path_keep. apply filter_chars_sublist.
  - unfold check_path. apply filter_chars_idem.
Qed.

(** ** Indexer *)

Section Digits.

Lemma digits_fuel_acc fuel n acc :
  Py.digits_fuel fuel n acc = Py.digits_fuel fuel n "" +:+ acc.
Proof.
  revert n acc. induction fuel as [|fuel IH]; intros n acc; [done|].
  simpl. destruct (n <? 10); [done|].
  rewrite IH. rewrite (IH _ (String _ "")).
  by rewrite app_assoc_str.
Qed.

Lemma digits_fuel_enough f1 f2 n acc :
  0 <= n -> n < 10 ^ Z.of_nat f1 -> n < 10 ^ Z.of_nat f2 ->
  (1 <= f1)%nat -> (1 <= f2)%nat ->
  Py.digits_fuel f1 n acc = Py.digits_fuel f2 n acc.
Proof.
  revert f2 n acc. induction f1 as [|f1 IH]; intros f2 n acc Hn H1 H2 Hf1 Hf2;
    [lia|].
  destruct f2 as [|f2]; [lia|]. simpl.
  destruct (Z.ltb_spec n 10) as [|Hge]; [done|].
  rewrite !Nat2Z.inj_succ, !Z.pow_succ_r in H1, H2 by lia.
  assert (1 <= n / 10) by (apply Z.div_le_lower_bound; lia).
  assert (n / 10 < 10 ^ Z.of_nat f1) by (apply Z.div_lt_upper_bound; lia).
  assert (n / 10 < 10 ^ Z.of_nat f2) by (apply Z.div_lt_upper_bound; lia).
  apply IH; try lia.
  - destruct f1; [simpl in *; lia | lia].
  - destruct f2; [simpl in *; lia | lia].
Qed.

Lemma log2_fuel_bound n :
  0 <= n -> n < 10 ^ Z.of_nat (S (Z.to_nat (Z.log2 n))).
Proof.
  intros Hn. rewrite Nat2Z.inj_succ, Z2Nat.id by apply Z.log2_nonneg.
  destruct (Z.eq_dec n 0) as [->|Hne]; [done|].
  pose proof (Z.log2_spec n ltac:(lia)) as [_ Hlt].
  eapply Z.lt_le_trans; [exact Hlt|].
  apply Z.pow_le_mono_l. lia.
Qed.

Lemma digits_unfold n :
  0 <= n ->
  Py.digits n =
    if n <? 10 then String (Py.digit_char (Z.to_nat (n mod 10))) ""
    else Py.digits (n / 10) +:+ String (Py.digit_char (Z.to_nat (n mod 10))) "".
Proof.
  intros Hn. unfold Py.digits at 1. simpl.
  destruct (Z.ltb_spec n 10) as [|Hge]; [done|].
  rewrite digits_fuel_acc. f_equal. unfold Py.digits.
  assert (1 <= n / 10) by (apply Z.div_le_lower_bound; lia).
  pose proof (log2_fuel_bound n Hn) as Hb.
  rewrite Nat2Z.inj_succ, Z.pow_succ_r in Hb by lia.
  assert (n / 10 < 10 ^ Z.of_nat (Z.to_nat (Z.log2 n)))
    by (apply Z.div_lt_upper_bound; lia).
  apply digits_fuel_enough; try lia.
  - apply log2_fuel_bound. lia.
  - destruct (Z.to_nat (Z.log2 n)); [simpl in *; lia | lia].
Qed.

Lemma digit_char_is_digit d : is_digit (Py.digit_char d) = true.
Proof. do 10 (destruct d as [|d]; [done|]). done. Qed.

Lemma digit_value_char d :
  (d < 10)%nat -> digit_value (Py.digit_char d) = Z.of_nat d.
Proof. intros Hd. do 10 (destruct d as [|d]; [done|]). lia. Qed.

Lemma all_chars_app P (s1 s2 : string) :
  all_chars P (s1 +:+ s2) = all_chars P s1 && all_chars P s2.
Proof.
  induction s1 as [|c s1 IH]; [done|].
  rewrite app_cons. simpl. rewrite IH. by destruct (P c).
Qed.

Lemma all_chars_repeat P c n :
  P c = true -> all_chars P (Py.repeat_char c n) = true.
Proof. intros Hc. induction n as [|n IH]; simpl; [done|]. by rewrite Hc. Qed.

Lemma all_chars_count P c (s : string) :
  all_chars P s = true -> count_char c s <> 0%nat -> P c = true.
Proof.
  induction s as [|c' s IH]; simpl; [done|].
  intros [Hc' Hs]%andb_prop Hcount.
  destruct (Ascii.eqb_spec c c') as [->|_]; [done|]. by apply IH.
Qed.

Lemma digits_fuel_all_digits fuel n acc :
  all_chars is_digit acc = true ->
  all_chars is_digit (Py.digits_fuel fuel n acc) = true.
Proof.
  revert n acc. induction fuel as [|fuel IH]; intros n acc Hacc; [done|].
  simpl. destruct (n <? 10).
  - simpl. by rewrite digit_char_is_digit.
  - apply IH. simpl. by rewrite digit_char_is_digit.
Qed.

Lemma digits_all_digits n : all_chars is_digit (Py.digits n) = true.
Proof. by apply digits_fuel_all_digits. Qed.

(** The number of digits [w] of [n] is the one with [10^(w-1) <= n < 10^w]. *)
Lemma digits_length_bounds n :
  0 <= n ->
  (1 <= String.length (Py.digits n))%nat /\
  n < 10 ^ Z.of_nat (String.length (Py.digits n)) /\
  (1 <= n -> 10 ^ Z.of_nat (String.length (Py.digits n) - 1) <= n).
Proof.
  intros Hn. pose proof (log2_fuel_bound n Hn) as Hb. revert Hb.
  generalize (S (Z.to_nat (Z.log2 n))) as f. intros f. revert n Hn.
  induction f as [|f IH]; intros n Hn Hb.
  - assert (n = 0) as -> by (simpl in Hb; lia). vm_compute. repeat split; lia || done.
  - rewrite digits_unfold by done.
    destruct (Z.ltb_spec n 10) as [|Hge].
    + simpl. repeat split; lia.
    + rewrite Nat2Z.inj_succ, Z.pow_succ_r in Hb by lia.
      assert (1 <= n / 10) as H1 by (apply Z.div_le_lower_bound; lia).
      assert (n / 10 < 10 ^ Z.of_nat f) as H2
        by (apply Z.div_lt_upper_bound; lia).
      destruct (IH (n / 10) ltac:(lia) H2) as (Hw & Hup & Hlow).
      specialize (Hlow H1).
      rewrite length_app_str. simpl.
      set (w := String.length (Py.digits (n / 10))) in *.
      pose proof (Z.div_mod n 10 ltac:(lia)) as Hdm.
      pose proof (Z.mod_pos_bound n 10 ltac:(lia)) as Hmod.
      replace (w + 1 - 1)%nat with (S (w - 1)) by lia.
      replace (w + 1)%nat with (S w) by lia.
      rewrite !Nat2Z.inj_succ, !Z.pow_succ_r by lia.
      assert (10 ^ Z.of_nat w = 10 * 10 ^ Z.of_nat (w - 1)) as Hpw.
      { replace w with (S (w - 1)) at 1 by lia.
        rewrite Nat2Z.inj_succ, Z.pow_succ_r by lia. done. }
      repeat split; lia.
Qed.

Lemma digits_length_mono i n :
  0 <= i <= n ->
  (String.length (Py.digits i) <= String.length (Py.digits n))%nat.
Proof.
  intros Hin. assert (0 <= n) as Hn by lia.
  pose proof (log2_fuel_bound n Hn) as Hb. revert Hb.
  generalize (S (Z.to_nat (Z.log2 n))) as f. intros f. revert i n Hin Hn.
  induction f as [|f IH]; intros i n Hin Hn Hb.
  - assert (n = 0) as -> by (simpl in Hb; lia).
    by assert (i = 0) as -> by lia.
  - rewrite (digits_unfold i), (digits_unfold n) by lia.
    destruct (Z.ltb_spec n 10) as [|Hge].
    + by destruct (Z.ltb_spec i 10); [|lia].
    + rewrite Nat2Z.inj_succ, Z.pow_succ_r in Hb by lia.
      destruct (Z.ltb_spec i 10).
      * rewrite length_app_str. simpl. lia.
      * rewrite !length_app_str. simpl.
        assert (i / 10 <= n / 10) by (apply Z.div_le_mono; lia).
        assert (0 <= i / 10) by (apply Z.div_pos; lia).
        assert (n / 10 < 10 ^ Z.of_nat f)
          by (apply Z.div_lt_upper_bound; lia).
        specialize (IH (i / 10) (n / 10)). lia.
Qed.

Lemma decimal_value_from_app acc (s1 s2 : string) :
  decimal_value_from acc (s1 +:+ s2)
  = decimal_value_from (decimal_value_from acc s1) s2.
Proof.
  revert acc. induction s1 as [|c s1 IH]; intros acc; [done|].
  rewrite app_cons. simpl. apply IH.
Qed.

Lemma decimal_value_zeros k : decimal_value (Py.repeat_char "0" k) = 0.
Proof. unfold decimal_value. induction k as [|k IH]; simpl; [done|]. apply IH. Qed.

(** Reading the digits back gives the number. *)
Lemma digits_value n : 0 <= n -> decimal_value (Py.digits n) = n.
Proof.
  intros Hn. pose proof (log2_fuel_bound n Hn) as Hb. revert Hb.
  generalize (S (Z.to_nat (Z.log2 n))) as f. intros f. revert n Hn.
  induction f as [|f IH]; intros n Hn Hb.
  - by assert (n = 0) as -> by (simpl in Hb; lia).
  - rewrite digits_unfold by done.
    pose proof (Z.mod_pos_bound n 10 ltac:(lia)) as Hmod.
    assert (digit_value (Py.digit_char (Z.to_nat (n mod 10))) = n mod 10) as Hd
      by (rewrite digit_value_char; lia).
    destruct (Z.ltb_spec n 10) as [|Hge].
    + unfold decimal_value. simpl. rewrite Hd, Z.mod_small; lia.
    + rewrite Nat2Z.inj_succ, Z.pow_succ_r in Hb by lia.
      unfold decimal_value. rewrite decimal_value_from_app. simpl.
      fold (decimal_value (Py.digits (n / 10))).
      rewrite IH, Hd.
      * pose proof (Z.div_mod n 10 ltac:(lia)). lia.
      * apply Z.div_pos; lia.
      * apply Z.div_lt_upper_bound; lia.
Qed.

Lemma zfill_digits (s : string) (width : nat) :
  all_chars is_digit s = true ->
  (String.length s <= width)%nat ->
  Py.zfill s width = Py.repeat_char "0" (width - String.length s) +:+ s.
Proof.
  intros Hs Hw. unfold Py.zfill.
  destruct (Nat.leb_spec width (String.length s)) as [Hle|Hlt].
  - by replace (width - String.length s)%nat with 0%nat by lia.
  - destruct s as [|c rest]; [by rewrite app_empty_r|].
    simpl in Hs. apply andb_prop in Hs as [Hc _].
    destruct (Ascii.eqb_spec c "+") as [->|_]; [done|].
    by destruct (Ascii.eqb_spec c "-") as [->|_].
Qed.

Lemma str_of_int_nonneg n : 0 <= n -> Py.str_of_int n = Py.digits n.
Proof. intros Hn. unfold Py.str_of_int. by destruct (Z.ltb_spec n 0); [lia|]. Qed.

End Digits.

Lemma lead0_padding (i N : Z) :
  0 <= i <= N ->
  lead0 i N
  = Py.repeat_char "0"
      (String.length (Py.str_of_int N) - String.length (Py.str_of_int i))
    +:+ Py.str_of_int i.
Proof.
  intros Hi. unfold lead0. rewrite !str_of_int_nonneg by lia.
  apply zfill_digits; [apply digits_all_digits | by apply digits_length_mono].
Qed.

Lemma lead0_all_digits (i N : Z) :
  0 <= i -> all_chars is_digit (lead0 i N) = true.
Proof.
  intros Hi. unfold lead0, Py.zfill. rewrite (str_of_int_nonneg i) by done.
  pose proof (digits_all_digits i) as Hd.
  destruct (_ <=? _)%nat; [done|].
  destruct (Py.digits i) as [|c rest] eqn:Heq.
  - by apply all_chars_repeat.
  - simpl in Hd. apply andb_prop in Hd as [Hc Hrest].
    destruct (Ascii.eqb_spec c "+") as [->|_]; [done|].
    destruct (Ascii.eqb_spec c "-") as [->|_]; [done|]. simpl.
    rewrite all_chars_app, all_chars_repeat by done. simpl.
    by rewrite Hc, Hrest.
Qed.

(** C8. For a collection of [N] items and a 1-based index [i <= N], the label
    [lead0 i N] is [str(i)] with zeros put in front until it is as long as
    [str(N)]; [str(i)] reads back as [i] in base ten, and the length [w] of
    [str(N)] is the number of decimal digits of [N]:
    [10^(w-1) <= N < 10^w]. *)
Theorem lead0_zero_padded (i N : Z) :
  1 <= i <= N ->
  lead0 i N
  = Py.repeat_char "0"
      (String.length (Py.str_of_int N) - String.length (Py.str_of_int i))
    +:+ Py.str_of_int i /\
  String.length (lead0 i N) = String.length (Py.str_of_int N) /\
  decimal_value (Py.str_of_int i) = i /\
  10 ^ Z.of_nat (String.length (Py.str_of_int N) - 1) <= N
    < 10 ^ Z.of_nat (String.length (Py.str_of_int N)).
Proof.
  intros Hi. rewrite lead0_padding by lia.
  rewrite length_app_str, length_repeat_char.
  rewrite !str_of_int_nonneg by lia.
  pose proof (digits_length_mono i N ltac:(lia)).
  destruct (digits_length_bounds N ltac:(lia)) as (_ & Hup & Hlow).
  repeat split; [lia | apply digits_value; lia | apply Hlow; lia | done].
Qed.

Lemma lead0_zero_padded_witness :
  1 <= 7 <= 125 /\ lead0 7 125 = "007" /\ String.length (lead0 7 125) = 3%nat.
Proof.
  split; [lia|].
  destruct (lead0_zero_padded 7 125 ltac:(lia)) as (Hpad & Hlen & _).
  split; [exact Hpad | exact Hlen].
Defined.

(** ** SeriesResolver *)

Section Split.

Lemma prefix_length (p s : string) :
  String.prefix p s = true -> (String.length p <= String.length s)%nat.
Proof.
  revert s. induction p as [|c p IH]; intros [|d s]; simpl; try done; try lia.
  destruct (ascii_dec c d); [|done]. intros H%IH. lia.
Qed.

Lemma prefix_app (p r : string) : String.prefix p (p +:+ r) = true.
Proof.
  induction p as [|c p IH]; [by destruct r|].
  rewrite app_cons. simpl. by destruct (ascii_dec c c).
Qed.

Lemma prefix_inv (p s : string) :
  String.prefix p s = true -> s = p +:+ Py.drop (String.length p) s.
Proof.
  revert s. induction p as [|c p IH]; intros [|d s]; simpl; try done.
  destruct (ascii_dec c d) as [->|]; [|done].
  intros H%IH. rewrite app_cons. by f_equal.
Qed.

Lemma take_app_length (s1 s2 : string) k :
  Py.take (String.length s1 + k) (s1 +:+ s2) = s1 +:+ Py.take k s2.
Proof.
  induction s1 as [|c s1 IH]; [done|]. rewrite !app_cons. simpl. by rewrite IH.
Qed.

Lemma drop_app_length (s1 s2 : string) k :
  Py.drop (String.length s1 + k) (s1 +:+ s2) = Py.drop k s2.
Proof. induction s1 as [|c s1 IH]; [done|]. rewrite app_cons. simpl. by rewrite IH. Qed.

Lemma take_drop (s : string) k : Py.take k s +:+ Py.drop k s = s.
Proof.
  revert k. induction s as [|c s IH]; intros [|k]; try done.
  simpl. by rewrite app_cons, IH.
Qed.

Lemma drop_drop (s : string) j k : Py.drop j (Py.drop k s) = Py.drop (k + j) s.
Proof.
  revert k. induction s as [|c s IH]; intros [|k]; simpl; try done.
  by destruct j.
Qed.

Lemma length_drop (s : string) k :
  String.length (Py.drop k s) = (String.length s - k)%nat.
Proof. revert k. induction s as [|c s IH]; intros [|k]; simpl; try done. Qed.

(** [Py.find] returns the first position at which the separator occurs. *)
Lemma find_Some_occurs (sep s : string) i :
  Py.find sep s = Some i -> String.prefix sep (Py.drop i s) = true.
Proof.
  revert i. induction s as [|c s IH]; intros i; cbn [Py.find].
  - destruct (String.prefix sep "") eqn:Hp; [|done].
    intros [= ?]; by subst.
  - destruct (String.prefix sep (String c s)) eqn:Hp; [intros [= ?]; by subst|].
    destruct (Py.find sep s) as [j|]; [|done].
    intros [= ?]; subst. by apply IH.
Qed.

Lemma find_Some_first (sep s : string) i k :
  Py.find sep s = Some i -> (k < i)%nat ->
  String.prefix sep (Py.drop k s) = false.
Proof.
  revert i k. induction s as [|c s IH]; intros i k; cbn [Py.find].
  - destruct (String.prefix sep "") eqn:Hp; [|done].
    intros [= ?]; subst. lia.
  - destruct (String.prefix sep (String c s)) eqn:Hp;
      [intros [= ?]; subst; lia|].
    destruct (Py.find sep s) as [j|]; [|done]. intros [= ?] Hk; subst.
    destruct k as [|k]; [done|]. simpl. apply (IH j); [done | lia].
Qed.

Lemma find_None_nowhere (sep s : string) k :
  Py.find sep s = None -> String.prefix sep (Py.drop k s) = false.
Proof.
  revert k. induction s as [|c s IH]; intros k; cbn [Py.find].
  - destruct (String.prefix sep "") eqn:Hp; [done|]. by destruct k.
  - destruct (String.prefix sep (String c s)) eqn:Hp; [done|].
    destruct (Py.find sep s) as [j|] eqn:Hf; [done|]. intros _.
    destruct k as [|k]; [done|]. simpl. by apply IH.
Qed.

Lemma find_Some_length (sep s : string) i :
  Py.find sep s = Some i ->
  (i + String.length sep <= String.length s)%nat.
Proof.
  revert i. induction s as [|c s IH]; intros i; cbn [Py.find].
  - destruct (String.prefix sep "") eqn:Hp; [|done].
    apply prefix_length in Hp. intros [= ?]; subst. simpl in *. lia.
  - destruct (String.prefix sep (String c s)) eqn:Hp.
    + apply prefix_length in Hp. intros [= ?]; subst. simpl in *. lia.
    + destruct (Py.find sep s) as [j|]; [|done].
      intros [= ?]; subst. specialize (IH j eq_refl). simpl. lia.
Qed.

Lemma find_prefix (sep s : string) :
  String.prefix sep s = true -> Py.find sep s = Some 0%nat.
Proof. intros H. destruct s; cbn [Py.find]; by rewrite H. Qed.

(** A run of characters other than the separator's first one is skipped. *)
Lemma find_skip c (sep' seg rest : string) :
  count_char c seg = 0%nat ->
  Py.find (String c sep') (seg +:+ rest)
  = option_map (Nat.add (String.length seg)) (Py.find (String c sep') rest).
Proof.
  induction seg as [|d seg IH]; intros Hc.
  - rewrite app_empty_l. by destruct (Py.find _ rest).
  - simpl in Hc. destruct (Ascii.eqb_spec c d) as [->|Hne]; [lia|].
    rewrite app_cons. cbn [Py.find String.prefix].
    destruct (ascii_dec c d); [done|].
    rewrite IH by lia. by destruct (Py.find _ rest).
Qed.

(** The fuel of [Py.split] is never exhausted on a non-empty separator. *)
Lemma split_fuel_enough (sep s : string) f1 f2 :
  sep <> "" ->
  (String.length s <= f1)%nat -> (String.length s <= f2)%nat ->
  Py.split_fuel f1 sep s = Py.split_fuel f2 sep s.
Proof.
  intros Hsep. revert f2 s.
  assert (forall s, String.length s = 0%nat -> Py.find sep s = None) as Hnil.
  { intros [|??]; [|done]. by destruct sep. }
  induction f1 as [|f1 IH]; intros [|f2] s H1 H2; simpl; try done.
  - rewrite Hnil by lia. done.
  - rewrite Hnil by lia. done.
  - destruct (Py.find sep s) as [i|] eqn:Hf; [|done]. f_equal.
    assert (1 <= String.length sep)%nat by (destruct sep; simpl; [done|lia]).
    apply IH; rewrite length_drop; lia.
Qed.

Lemma split_not_nil (s sep : string) : Py.split s sep <> [].
Proof.
  unfold Py.split. destruct (String.length s); simpl; [done|].
  by destruct (Py.find sep s).
Qed.

Lemma split_fuel_not_nil fuel (sep s : string) : Py.split_fuel fuel sep s <> [].
Proof. destruct fuel; simpl; [done|]. by destruct (Py.find sep s). Qed.

(** Joining the pieces with the separator gives the string back. *)
Lemma split_fuel_join fuel (sep s : string) :
  Py.join sep (Py.split_fuel fuel sep s) = s.
Proof.
  revert s. induction fuel as [|fuel IH]; intros s; [done|].
  cbn [Py.split_fuel]. destruct (Py.find sep s) as [i|] eqn:Hfind; [|done].
  pose proof (split_fuel_not_nil fuel sep (Py.drop (i + String.length sep) s))
    as Hne.
  specialize (IH (Py.drop (i + String.length sep) s)).
  unfold Py.join in *. cbn [String.concat].
  destruct (Py.split_fuel fuel sep (Py.drop (i + String.length sep) s))
    as [|piece pieces]; [done|].
  rewrite IH. apply find_Some_occurs, prefix_inv in Hfind.
  rewrite drop_drop in Hfind.
  rewrite <- (take_drop s i) at 3. by rewrite Hfind at 1.
Qed.

Lemma split_join (s sep : string) : Py.join sep (Py.split s sep) = s.
Proof. apply split_fuel_join. Qed.

End Split.

Lemma until_slash_spec (t : string) :
  exists r, t = until_slash t +:+ r /\
            (r = "" \/ exists r', r = String "/" r') /\
            count_char "/" (until_slash t) = 0%nat.
Proof.
  induction t as [|c t (r & Heq & Hr & Hc)]; [by exists ""; auto|].
  simpl. destruct (Ascii.eqb_spec c "/") as [->|Hne].
  - exists (String "/" t). eauto.
  - exists r. rewrite app_cons, <- Heq. split; [done|]. split; [exact Hr|].
    cbn [count_char]. destruct (Ascii.eqb_spec "/" c); [congruence | lia].
Qed.

(** First piece of a split at the slash, for a segment followed by nothing
    or by a slash. *)
Lemma split_slash_first (seg r : string) :
  count_char "/" seg = 0%nat ->
  r = "" \/ (exists r', r = String "/" r') ->
  Py.subscript (Py.split (seg +:+ r) "/") 0 = Ok seg.
Proof.
  intros Hseg Hr. unfold Py.split.
  destruct (String.length (seg +:+ r)) as [|f] eqn:Hlen.
  - rewrite length_app_str in Hlen.
    destruct seg; [|simpl in Hlen; lia]. destruct r; [done|simpl in Hlen; lia].
  - cbn [Py.split_fuel]. rewrite (find_skip "/" "" seg r Hseg).
    destruct Hr as [->|[r' ->]].
    + cbn. by rewrite app_empty_r.
    + rewrite (find_prefix "/" (String "/" r')) by apply (prefix_app "/" r').
      cbn [option_map Py.subscript nth_error].
      by rewrite take_app_length, app_empty_r.
Qed.

Lemma get_series_id_segment (s seg rest : string) (i : nat) :
  Py.startswith s "http" = true ->
  Py.find "/series/" s = Some i ->
  Py.drop (i + 8) s = seg +:+ rest ->
  count_char "/" seg = 0%nat ->
  rest = "" \/ (exists r', rest = String "/" r') ->
  get_series_id s = Ok seg.
Proof.
  intros Hhttp Hfind Hdrop Hseg Hrest. unfold get_series_id. rewrite Hhttp.
  pose proof (find_Some_length _ _ _ Hfind) as Hlen. simpl in Hlen.
  unfold Py.split at 2.
  destruct (String.length s) as [|[|f]] eqn:Hs; [lia | lia |].
  cbn [Py.split_fuel]. rewrite Hfind. cbn [String.length].
  rewrite Hdrop. rewrite (find_skip "/" "series/" seg rest Hseg).
  assert (forall r, r = "" \/ (exists r', r = String "/" r') ->
          (Py.subscript (Py.split (seg +:+ r) "/") 0 : result string) = Ok seg)
    as Hfirst by (intros r; by apply split_slash_first).
  destruct (Py.find "/series/" rest) as [j|] eqn:Hj; cbn.
  - rewrite take_app_length. apply Hfirst.
    destruct Hrest as [->|[r' ->]]; [by destruct j; left|].
    destruct j as [|j]; [by left | right; simpl; eauto].
  - by apply Hfirst.
Qed.

(** C3 (amended). An input that does not start with [http] is returned
    unchanged.  An input that starts with [http] and contains [/series/]
    resolves to the segment after the first [/series/], up to the next slash
    or the end.  In particular the full URL of the series [Erma] and the bare
    name [Erma] both resolve to [Erma]. *)
Theorem get_series_id_resolves (s : string) :
  (Py.startswith s "http" = false -> get_series_id s = Ok s) /\
  (forall i, Py.startswith s "http" = true ->
             Py.find "/series/" s = Some i ->
             get_series_id s = Ok (until_slash (Py.drop (i + 8) s))).
Proof.
  split.
  - intros H. unfold get_series_id. by rewrite H.
  - intros i Hhttp Hfind.
    destruct (until_slash_spec (Py.drop (i + 8) s)) as (r & Heq & Hr & Hc).
    by apply (get_series_id_segment s _ r i).
Qed.

Lemma get_series_id_resolves_witness :
  get_series_id "Erma" = Ok "Erma" /\
  get_series_id "https://tapas.io/series/Erma/info" = Ok "Erma".
Proof.
  split.
  - apply (proj1 (get_series_id_resolves "Erma")). reflexivity.
  - apply (proj2 (get_series_id_resolves "https://tapas.io/series/Erma/info")
             16%nat); reflexivity.
Defined.

(** The resolver is not the one of the specification: a name that contains
    the marker but does not start with [http] is returned whole. *)
Lemma get_series_id_differs_from_spec :
  ~ (forall s, get_series_id s = Ok (spec_series_resolver s)).
Proof.
  intros H. specialize (H "tapas.io/series/Erma"). vm_compute in H. done.
Qed.

(** A string that starts with [http] but has no series marker makes the
    resolver raise. *)
Example get_series_id_raises :
  get_series_id "https://tapas.io/Erma" = Raise IndexError.
Proof. reflexivity. Qed.

(** ** Runs of the main loop *)

Section Runs.

Context (E : env) (a : args).

Lemma bind_run {A B} (c : M A) (k : A -> M B) (w : world) :
  (c ≫= k) w =
    match c w with
    | (Ok x, w') => k x w'
    | (Raise e, w') => (Raise e, w')
    end.
Proof. reflexivity. Qed.

Lemma for_enumerate_app {A} (body : Z -> A -> M unit) start (l1 l2 : list A) w :
  for_enumerate body start (l1 ++ l2) w =
    match for_enumerate body start l1 w with
    | (Ok _, w1) => for_enumerate body (start + len l1) l2 w1
    | (Raise e, w1) => (Raise e, w1)
    end.
Proof.
  revert start w. induction l1 as [|x l1 IH]; intros start w.
  - simpl. unfold len. simpl. by rewrite Z.add_0_r.
  - cbn [for_enumerate app]. rewrite !bind_run.
    destruct (body start x w) as [[[]|e] w1]; [|done].
    rewrite IH. unfold len. cbn [length].
    by replace (start + 1 + Z.of_nat (length l1))
      with (start + Z.of_nat (S (length l1))) by lia.
Qed.

(** A property of the world that every step of a computation keeps. *)
Definition stable (P : world -> Prop) {A} (c : M A) : Prop :=
  forall w, P w -> P (c w).2.

Lemma stable_bind P {A B} (c : M A) (k : A -> M B) :
  stable P c -> (forall x, stable P (k x)) -> stable P (c ≫= k).
Proof.
  intros Hc Hk w Hw. rewrite bind_run. specialize (Hc w Hw).
  destruct (c w) as [[x|e] w1]; [by apply Hk | done].
Qed.

Lemma stable_ret P {A} (x : A) : stable P (mret x : M A).
Proof. by intros w Hw. Qed.

Lemma stable_lift P {A} (r : result A) : stable P (lift r).
Proof. by intros w Hw. Qed.

Lemma stable_raise P {A} e : stable P (raise e : M A).
Proof. by intros w Hw. Qed.

Lemma stable_try P {A} (c : M A) : stable P c -> stable P (try_except c).
Proof.
  intros Hc w Hw. unfold try_except. specialize (Hc w Hw).
  by destruct (c w).
Qed.

Lemma stable_for_enumerate P {A} (body : Z -> A -> M unit) start l :
  (forall i x, stable P (body i x)) -> stable P (for_enumerate body start l).
Proof.
  intros Hbody. revert start. induction l as [|x l IH]; intros start.
  - apply stable_ret.
  - apply stable_bind; [apply Hbody | intros _; apply IH].
Qed.

Lemma stable_for_each P {A} (body : A -> M unit) l :
  (forall x, stable P (body x)) -> stable P (for_each body l).
Proof.
  intros Hbody. induction l as [|x l IH].
  - apply stable_ret.
  - apply stable_bind; [apply Hbody | intros _; apply IH].
Qed.

(** Nothing the script does removes a file or a directory. *)
Lemma file_exists_log p r w : file_exists p (log_request r w) = file_exists p w.
Proof. reflexivity. Qed.

Lemma file_exists_put p q data w :
  file_exists p w = true -> file_exists p (put_file q data w) = true.
Proof.
  unfold file_exists. cbn [dirs files put_file].
  intros [H|H]%orb_prop; apply orb_true_intro; [by left|right].
  apply bool_decide_eq_true in H. apply bool_decide_eq_true.
  destruct (decide (q = p)) as [->|Hne];
    [by rewrite lookup_insert_eq | by rewrite lookup_insert_ne].
Qed.

Lemma file_exists_make_dirs p q w :
  file_exists p w = true -> file_exists p (make_dirs q w) = true.
Proof.
  unfold file_exists. cbn [dirs files make_dirs].
  intros [H|H]%orb_prop; apply orb_true_intro; [left|by right].
  apply bool_decide_eq_true in H. apply bool_decide_eq_true. set_solver.
Qed.

Lemma ancestors_self (p : path) : p ∈ ancestors p.
Proof.
  induction p as [|name p IH]; simpl; [set_solver|].
  apply list_elem_of_further. by apply list_elem_of_fmap_2.
Qed.

Lemma file_exists_made p w : file_exists p (make_dirs p w) = true.
Proof.
  unfold file_exists. cbn [dirs make_dirs]. apply orb_true_intro. left.
  apply bool_decide_eq_true. apply elem_of_union_l, elem_of_list_to_set.
  apply ancestors_self.
Qed.

End Runs.

(** ** Persister *)

Section Persister.

Context (E : env) (a : args).

Lemma save_image_run savePath ep_idx n_eps n_imgs ep_title img_idx img_url w :
  let fpath :=
    savePath ++ [image_fname a ep_idx n_eps img_idx n_imgs ep_title img_url] in
  save_image E a savePath ep_idx n_eps n_imgs ep_title img_idx img_url w =
    if file_exists fpath w then (Ok tt, w)
    else match get_image E img_url with
         | Ok data => (Ok tt, put_file fpath data (log_request (ReqImage img_url) w))
         | Raise e => (Raise e, log_request (ReqImage img_url) w)
         end.
Proof.
  intros fpath. subst fpath. unfold save_image. cbv zeta. rewrite bind_run.
  unfold path_exists. destruct (file_exists _ w); [done|].
  cbn [negb]. rewrite !bind_run. unfold send, lift.
  by destruct (get_image E img_url).
Qed.

Lemma save_image_keeps_file p data
    savePath ep_idx n_eps n_imgs ep_title img_idx img_url :
  stable (fun w => files w !! p = Some data)
    (save_image E a savePath ep_idx n_eps n_imgs ep_title img_idx img_url).
Proof.
  intros w Hp. rewrite save_image_run.
  destruct (file_exists _ w) eqn:Hex; [done|].
  destruct (get_image E img_url); [|done].
  cbn [snd files put_file log_request]. rewrite lookup_insert_ne; [done|].
  intros Heq. rewrite Heq in Hex.
  unfold file_exists in Hex. apply orb_false_elim in Hex as [_ Hex].
  apply bool_decide_eq_false in Hex. apply Hex. by rewrite Hp.
Qed.

Lemma save_images_at savePath ep_idx n_eps ep_title pre img_url post w w1 :
  let imgs := pre ++ img_url :: post in
  let body := save_image E a savePath ep_idx n_eps (len imgs) ep_title in
  for_enumerate body 1 pre w = (Ok tt, w1) ->
  save_images E a savePath ep_idx n_eps ep_title imgs w =
    match body (len pre + 1) img_url w1 with
    | (Ok _, w2) => for_enumerate body (len pre + 2) post w2
    | (Raise e, w2) => (Raise e, w2)
    end.
Proof.
  intros imgs body Hpre. unfold save_images. fold imgs body.
  change (for_enumerate body 1 imgs w)
    with (for_enumerate body 1 (pre ++ img_url :: post) w).
  rewrite for_enumerate_app, Hpre. cbn [for_enumerate].
  rewrite bind_run, (Z.add_comm 1 (len pre)).
  destruct (body (len pre + 1) img_url w1) as [[[]|e] w2]; [|done].
  by replace (len pre + 1 + 1) with (len pre + 2) by lia.
Qed.

(** C6. In a gallery, the image at 1-based position [len pre + 1] whose
    computed path already exists is neither requested nor written: the loop
    goes on to the next image from the same world.  Otherwise one request
    for its URL is made and the answered bytes are stored at that path as
    they are.  Over the whole gallery every file that existed before keeps
    its bytes.  The prose file of an episode is written with the parsed text
    whatever was there before. *)
Theorem persist_skips_existing_images
    savePath ep_idx n_eps ep_title pre img_url post w w1 :
  let imgs := pre ++ img_url :: post in
  let body := save_image E a savePath ep_idx n_eps (len imgs) ep_title in
  let fpath :=
    savePath ++
      [image_fname a ep_idx n_eps (len pre + 1) (len imgs) ep_title img_url] in
  for_enumerate body 1 pre w = (Ok tt, w1) ->
  (file_exists fpath w1 = true ->
   save_images E a savePath ep_idx n_eps ep_title imgs w
   = for_enumerate body (len pre + 2) post w1) /\
  (forall data,
      file_exists fpath w1 = false -> get_image E img_url = Ok data ->
      save_images E a savePath ep_idx n_eps ep_title imgs w
      = for_enumerate body (len pre + 2) post
          (put_file fpath data (log_request (ReqImage img_url) w1))) /\
  (forall p data,
      files w !! p = Some data ->
      files (save_images E a savePath ep_idx n_eps ep_title imgs w).2 !! p
      = Some data) /\
  (forall doc w',
      save_novel a savePath ep_idx n_eps ep_title doc w'
      = (Ok tt, put_file (savePath ++ [prose_fname a ep_idx n_eps ep_title])
                  (parse_novel_text doc) w')).
Proof.
  intros imgs body fpath Hpre.
  pose proof (save_images_at savePath ep_idx n_eps ep_title pre img_url post
                w w1 Hpre) as Hat.
  cbv zeta in Hat. rewrite save_image_run in Hat.
  subst imgs body fpath.
  split; [|split; [|split]].
  - intros Hex. by rewrite Hat, Hex.
  - intros data Hex Hget. by rewrite Hat, Hex, Hget.
  - intros p data Hp. unfold save_images.
    apply (stable_for_enumerate (fun w0 => files w0 !! p = Some data));
      [|done].
    intros i x. apply save_image_keeps_file.
  - done.
Qed.

End Persister.

(** ** ContentClassifier *)

Section Classifier.

Context (E : env) (a : args).

Lemma parse_novel_text_loop_filter (ps paras : list string) :
  parse_novel_text_loop ps paras = paras ++ filter (fun t => t <> "") ps.
Proof.
  revert paras. induction ps as [|t ps IH]; intros paras; simpl.
  - by rewrite app_nil_r.
  - destruct t as [|c t].
    + rewrite filter_cons_False by (intros H; by apply H). apply IH.
    + rewrite filter_cons_True by done. rewrite IH.
      by rewrite <- app_assoc.
Qed.

Lemma parse_novel_text_filter (doc : html) :
  parse_novel_text doc
  = String.concat newline2 (filter (fun t => t <> "") (body_paras doc)).
Proof. unfold parse_novel_text. by rewrite parse_novel_text_loop_filter. Qed.

Lemma parse_comic_images_loop_acc (elems : list img_element) (imgs : list string) :
  parse_comic_images_loop elems imgs
  = imgs ++ parse_comic_images_loop elems [].
Proof.
  revert imgs. induction elems as [|img elems IH]; intros imgs; simpl.
  - by rewrite app_nil_r.
  - destruct (src_of img) as [[|c s]|]; try apply IH.
    rewrite IH, (IH [_]). by rewrite <- app_assoc.
Qed.

(** No image is detected exactly when no element carries a non-empty
    source. *)
Lemma parse_comic_images_nil (doc : html) :
  parse_comic_images doc = [] <->
  Forall (fun img => forall c s, src_of img <> Some (String c s))
         (content_imgs doc).
Proof.
  unfold parse_comic_images.
  induction (content_imgs doc) as [|img elems IH]; simpl.
  - split; [constructor | done].
  - destruct (src_of img) as [[|c s]|] eqn:Hsrc.
    + rewrite IH, Forall_cons. split; [|by intros [_ H]].
      intros H. split; [|done]. intros c s. by rewrite Hsrc.
    + rewrite parse_comic_images_loop_acc. split; [done|].
      intros [Himg _]%Forall_cons. by destruct (Himg c s).
    + rewrite IH, Forall_cons. split; [|by intros [_ H]].
      intros H. split; [|done]. intros c s. by rewrite Hsrc.
Qed.

Lemma save_episode_prose savePath ep_idx n_eps ep_title doc w :
  parse_comic_images doc = [] ->
  save_episode E a savePath ep_idx n_eps ep_title doc w
  = (Ok tt, put_file (savePath ++ [prose_fname a ep_idx n_eps ep_title])
              (parse_novel_text doc) w).
Proof. intros Himgs. unfold save_episode. by rewrite Himgs. Qed.

(** C4. Classification is image-first and exclusive.  When at least one
    image URL is extracted the episode is saved as a gallery and the
    paragraphs play no part in the outcome; only when none is extracted the
    episode is saved as prose; and with no image and no non-empty paragraph
    the prose file is written empty and nothing is raised. *)
Theorem classification_image_first savePath ep_idx n_eps ep_title doc w :
  (parse_comic_images doc <> [] ->
   save_episode E a savePath ep_idx n_eps ep_title doc w
   = save_images E a savePath ep_idx n_eps ep_title (parse_comic_images doc) w
   /\ forall paras',
       save_episode E a savePath ep_idx n_eps ep_title
         {| content_imgs := content_imgs doc; body_paras := paras' |} w
       = save_episode E a savePath ep_idx n_eps ep_title doc w) /\
  (parse_comic_images doc = [] ->
   save_episode E a savePath ep_idx n_eps ep_title doc w
   = (Ok tt, put_file (savePath ++ [prose_fname a ep_idx n_eps ep_title])
               (parse_novel_text doc) w)) /\
  (parse_comic_images doc = [] ->
   Forall (fun t => t = "") (body_paras doc) ->
   save_episode E a savePath ep_idx n_eps ep_title doc w
   = (Ok tt, put_file (savePath ++ [prose_fname a ep_idx n_eps ep_title])
               "" w)).
Proof.
  split; [|split].
  - intros Himgs. unfold save_episode, parse_comic_images in *.
    cbn [content_imgs].
    destruct (parse_comic_images_loop (content_imgs doc) []); done.
  - apply save_episode_prose.
  - intros Himgs Hparas. rewrite save_episode_prose by done.
    rewrite parse_novel_text_filter.
    replace (filter (fun t => t <> "") (body_paras doc)) with (@nil string);
      [done|].
    induction Hparas as [|t ps -> _ IH]; [done|].
    by rewrite filter_cons_False by (intros H; by apply H).
Qed.

(** C10. For an episode whose page yields no image, the text file of the
    episode holds the non-empty paragraph texts of the article body, in
    document order, joined by two line feeds. *)
Theorem prose_file_content savePath n_eps ep_idx ep doc w :
  get_episode E (ep_id ep) = Ok doc ->
  parse_comic_images doc = [] ->
  (download_episode E a savePath n_eps ep_idx ep w).1 = Ok tt /\
  files (download_episode E a savePath n_eps ep_idx ep w).2
    !! (savePath ++ [prose_fname a ep_idx n_eps (ep_title ep)])
  = Some (String.concat (String "010" (String "010" ""))
            (filter (fun t => t <> "") (body_paras doc))).
Proof.
  intros Hget Himgs. unfold download_episode, fetch_episode_content.
  rewrite !bind_run. unfold send, lift. rewrite Hget.
  rewrite save_episode_prose by done.
  cbn [fst snd files put_file]. split; [done|].
  by rewrite lookup_insert_eq, parse_novel_text_filter.
Qed.

End Classifier.

(** ** IngestionOrchestrator *)

Section Orchestrator.

Context (E : env) (a : args).

(** The run of one series, case by case. *)
Lemma process_series_run u w :
  process_series E a u w =
    match get_series_id u with
    | Raise e => (Raise e, w)
    | Ok seriesName =>
        match py_int E seriesName with
        | None => (Ok tt, w)
        | Some n =>
            let w1 := log_request (ReqSeries n) w in
            match post_graphql E n with
            | Raise _ => (Ok tt, w1)
            | Ok ser =>
                let savePath := save_path a (title ser) seriesName in
                if file_exists savePath w then
                  if force a then
                    download_episodes E a savePath (entries ser) w1
                  else (Ok tt, w1)
                else
                  download_episodes E a savePath (entries ser)
                    (make_dirs savePath w1)
            end
        end
    end.
Proof.
  unfold process_series. rewrite bind_run. unfold lift at 1.
  destruct (get_series_id u) as [seriesName|e]; [|done].
  rewrite bind_run. unfold try_except, fetch_series.
  destruct (py_int E seriesName) as [n|]; [|done].
  rewrite bind_run. unfold send, lift.
  destruct (post_graphql E n) as [ser|e]; [|done].
  cbv zeta. rewrite bind_run. unfold path_exists.
  rewrite file_exists_log.
  destruct (file_exists _ w); cbn [negb]; [by destruct (force a)|].
  by rewrite bind_run.
Qed.

Lemma save_episode_keeps_existing p savePath ep_idx n_eps ep_title doc :
  stable (fun w => file_exists p w = true)
    (save_episode E a savePath ep_idx n_eps ep_title doc).
Proof.
  unfold save_episode. destruct (parse_comic_images doc) as [|img imgs].
  - intros w Hw. by apply file_exists_put.
  - apply stable_for_enumerate. intros i x w Hw. rewrite save_image_run.
    destruct (file_exists (_ ++ _) w); [exact Hw|].
    destruct (get_image E x); [by apply file_exists_put | exact Hw].
Qed.

Lemma download_episodes_keeps_existing p savePath episodes :
  stable (fun w => file_exists p w = true)
    (download_episodes E a savePath episodes).
Proof.
  apply stable_for_enumerate. intros i ep.
  apply stable_bind; [|intros doc; apply save_episode_keeps_existing].
  apply stable_bind; [by intros w Hw | intros _; apply stable_lift].
Qed.

(** C9 (amended). A second run on the same series without [force] leaves
    directories and files exactly as the first run left them and fetches no
    episode and no image; the only request it may add is the metadata query
    of the series, which is repeated whenever the identifier is numeric. *)
Theorem rerun_without_force u w :
  force a = false ->
  let w1 := (process_series E a u w).2 in
  let w2 := (process_series E a u w1).2 in
  dirs w2 = dirs w1 /\ files w2 = files w1 /\
  match get_series_id u with
  | Ok seriesName =>
      match py_int E seriesName with
      | Some n => requests w2 = requests w1 ++ [ReqSeries n]
      | None => requests w2 = requests w1
      end
  | Raise _ => requests w2 = requests w1
  end.
Proof.
  intros Hforce w1 w2. subst w2.
  rewrite (process_series_run u w1).
  subst w1. rewrite (process_series_run u w).
  destruct (get_series_id u) as [seriesName|e]; [|done].
  destruct (py_int E seriesName) as [n|]; [|done].
  destruct (post_graphql E n) as [ser|e]; [|done].
  cbv zeta. rewrite Hforce.
  set (savePath := save_path a (title ser) seriesName).
  set (w1 := log_request (ReqSeries n) w).
  assert (forall w', file_exists savePath w' = true ->
            (if file_exists savePath w' then (Ok tt, log_request (ReqSeries n) w')
             else download_episodes E a savePath (entries ser)
                    (make_dirs savePath (log_request (ReqSeries n) w'))).2
            = log_request (ReqSeries n) w') as Hskip by (by intros w' ->).
  destruct (file_exists savePath w) eqn:Hex.
  - cbn [snd]. rewrite Hskip by done. done.
  - rewrite Hskip; [done|].
    apply download_episodes_keeps_existing, file_exists_made.
Qed.

Lemma download_episodes_failure savePath pre ep post e w0 w1 :
  for_enumerate (download_episode E a savePath (len (pre ++ ep :: post)))
    1 pre w0 = (Ok tt, w1) ->
  get_episode E (ep_id ep) = Raise e ->
  download_episodes E a savePath (pre ++ ep :: post) w0
  = (Raise e, log_request (ReqEpisode (ep_id ep)) w1).
Proof.
  intros Hpre Hget. unfold download_episodes.
  rewrite for_enumerate_app, Hpre. cbn [for_enumerate].
  rewrite bind_run. unfold download_episode at 1.
  rewrite bind_run. unfold fetch_episode_content. rewrite bind_run.
  unfold send, lift. by rewrite Hget.
Qed.

(** C1 (amended). The series are processed one after the other: when the
    run of one series returns, the next identifier is processed from the
    world it left.  A series whose metadata cannot be fetched returns
    normally, so the following series are processed.  A failing episode
    fetch is not caught: it ends the episode loop of its series and the
    whole run with it, whatever identifiers follow. *)
Theorem series_run_in_sequence u rest w :
  (forall w',
      process_series E a u w = (Ok tt, w') ->
      for_each (process_series E a) (u :: rest) w
      = for_each (process_series E a) rest w') /\
  (forall seriesName,
      get_series_id u = Ok seriesName ->
      py_int E seriesName = None \/
      (exists n e, py_int E seriesName = Some n /\
                   post_graphql E n = Raise e) ->
      (process_series E a u w).1 = Ok tt) /\
  (forall seriesName n ser pre ep post e w1,
      get_series_id u = Ok seriesName ->
      py_int E seriesName = Some n ->
      post_graphql E n = Ok ser ->
      entries ser = pre ++ ep :: post ->
      let savePath := save_path a (title ser) seriesName in
      let w0 :=
        if file_exists savePath w then log_request (ReqSeries n) w
        else make_dirs savePath (log_request (ReqSeries n) w) in
      (file_exists savePath w = true -> force a = true) ->
      for_enumerate (download_episode E a savePath (len (entries ser)))
        1 pre w0 = (Ok tt, w1) ->
      get_episode E (ep_id ep) = Raise e ->
      for_each (process_series E a) (u :: rest) w
      = (Raise e, log_request (ReqEpisode (ep_id ep)) w1)).
Proof.
  split; [|split].
  - intros w' Hrun. cbn [for_each]. by rewrite bind_run, Hrun.
  - intros seriesName Hid Hfail. rewrite process_series_run, Hid.
    destruct Hfail as [->|(n & e & -> & ->)]; done.
  - intros seriesName n ser pre ep post e w1 Hid Hint Hpost Hentries
      savePath w0 Hforce Hpre Hget.
    cbn [for_each]. rewrite bind_run, process_series_run, Hid, Hint, Hpost.
    cbv zeta. fold savePath. rewrite Hentries in *.
    subst w0. destruct (file_exists savePath w) eqn:Hex.
    + rewrite (Hforce eq_refl).
      by rewrite (download_episodes_failure _ _ _ _ e _ w1).
    + by rewrite (download_episodes_failure _ _ _ _ e _ w1).
Qed.

End Orchestrator.

(** ** File names *)

Section FileNames.

Context (E : env) (a : args).

Lemma check_path_app (s1 s2 : string) slash fat :
  check_path (s1 +:+ s2) slash fat
  = check_path s1 slash fat +:+ check_path s2 slash fat.
Proof. unfold check_path. apply filter_chars_app. Qed.

Lemma is_digit_not_removed c fat : is_digit c = true -> removed fat c = false.
Proof.
  unfold is_digit, Py.char_in. cbn [existsb].
  repeat match goal with
         | |- context [Ascii.eqb c ?d] =>
             destruct (Ascii.eqb_spec c d) as [->|_]; [by destruct fat|]
         end.
  done.
Qed.

Lemma check_path_digits (s : string) fat :
  all_chars is_digit s = true -> check_path s true fat = s.
Proof.
  intros Hs. rewrite check_path_keep. apply filter_chars_id.
  intros c Hc. rewrite is_digit_not_removed; [done|].
  by apply (all_chars_count is_digit c s).
Qed.

Lemma check_path_literals fat :
  check_path " - " true fat = " - " /\
  check_path "." true fat = "." /\
  check_path ".txt" true fat = ".txt".
Proof. by destruct fat. Qed.

Lemma image_fname_parts ep_idx n_eps img_idx n_imgs ep_title img_url :
  0 <= ep_idx -> 0 <= img_idx ->
  image_fname a ep_idx n_eps img_idx n_imgs ep_title img_url
  = lead0 ep_idx n_eps +:+ " - " +:+ lead0 img_idx n_imgs +:+ " - "
    +:+ check_path ep_title true (restrict_characters a) +:+ "."
    +:+ check_path (List.last (Py.split img_url ".") "") true
          (restrict_characters a).
Proof.
  intros He Hi. unfold image_fname. rewrite !check_path_app.
  rewrite (check_path_digits (lead0 ep_idx n_eps))
    by by apply lead0_all_digits.
  rewrite (check_path_digits (lead0 img_idx n_imgs))
    by by apply lead0_all_digits.
  rewrite !(proj1 (check_path_literals _)).
  by rewrite (proj1 (proj2 (check_path_literals _))).
Qed.

Lemma prose_fname_parts ep_idx n_eps ep_title :
  0 <= ep_idx ->
  prose_fname a ep_idx n_eps ep_title
  = lead0 ep_idx n_eps +:+ " - "
    +:+ check_path ep_title true (restrict_characters a) +:+ ".txt".
Proof.
  intros He. unfold prose_fname. rewrite !check_path_app.
  rewrite (check_path_digits (lead0 ep_idx n_eps))
    by by apply lead0_all_digits.
  by rewrite (proj1 (check_path_literals _)), (proj2 (proj2 (check_path_literals _))).
Qed.

(** C2 (amended). The image of index [img_idx] of episode [ep_idx] is stored
    under [<epIdx> - <imgIdx> - <title>.<ext>] and the prose of an episode
    under [<epIdx> - <title>.txt]: the parts are joined by a hyphen between
    two spaces, the title and the extension (what follows the last dot of
    the URL) are sanitized, and each index is zero-padded to the length of
    the size of its collection. *)
Theorem file_names_layout savePath ep_idx n_eps img_idx n_imgs
    ep_title img_url doc data w :
  1 <= ep_idx <= n_eps ->
  1 <= img_idx <= n_imgs ->
  let fat := restrict_characters a in
  let image_name :=
    lead0 ep_idx n_eps +:+ " - " +:+ lead0 img_idx n_imgs +:+ " - "
    +:+ check_path ep_title true fat +:+ "."
    +:+ check_path (List.last (Py.split img_url ".") "") true fat in
  let prose_name :=
    lead0 ep_idx n_eps +:+ " - " +:+ check_path ep_title true fat
    +:+ ".txt" in
  String.length (lead0 ep_idx n_eps) = String.length (Py.str_of_int n_eps) /\
  String.length (lead0 img_idx n_imgs) = String.length (Py.str_of_int n_imgs) /\
  (file_exists (savePath ++ [image_name]) w = false ->
   get_image E img_url = Ok data ->
   files (save_image E a savePath ep_idx n_eps n_imgs ep_title
            img_idx img_url w).2 !! (savePath ++ [image_name]) = Some data) /\
  files (save_novel a savePath ep_idx n_eps ep_title doc w).2
    !! (savePath ++ [prose_name]) = Some (parse_novel_text doc).
Proof.
  intros He Hi fat image_name prose_name.
  assert (forall i n, 1 <= i <= n ->
            String.length (lead0 i n) = String.length (Py.str_of_int n)) as Hw.
  { intros i n Hin. rewrite lead0_padding by lia.
    rewrite length_app_str, length_repeat_char.
    rewrite !str_of_int_nonneg by lia.
    pose proof (digits_length_mono i n ltac:(lia)). lia. }
  split; [by apply Hw|]. split; [by apply Hw|]. split.
  - intros Hex Hget. rewrite save_image_run.
    rewrite image_fname_parts by lia. fold fat image_name.
    rewrite Hex, Hget. cbn [snd files put_file].
    by rewrite lookup_insert_eq.
  - unfold save_novel, write_file. rewrite prose_fname_parts by lia.
    cbn [snd files put_file]. subst prose_name fat.
    by rewrite lookup_insert_eq.
Qed.

End FileNames.

(** ** The claims on the example host *)

Section Examples.

#[local] Abbreviation E := example_env.
#[local] Abbreviation a := example_args.
#[local] Abbreviation dest := (["out"; "MyComic [7]"] : path).

(** The whole run: two images and one text are stored, the third episode of
    series 7 cannot be fetched, the run ends there and series 8 is never
    asked for. *)
Example main_run :
  (main E a empty_world).1 = Raise RequestException /\
  requests (main E a empty_world).2
  = [ReqSeries 7; ReqEpisode 1; ReqImage "http://h/a.png";
     ReqImage "http://h/b.jpg"; ReqEpisode 2; ReqEpisode 3] /\
  files (main E a empty_world).2 !! (dest ++ ["1 - 1 - A.png"])
  = Some "bytes of http://h/a.png" /\
  files (main E a empty_world).2 !! (dest ++ ["1 - 2 - A.jpg"])
  = Some "bytes of http://h/b.jpg" /\
  files (main E a empty_world).2 !! (dest ++ ["2 - B.txt"])
  = Some (parse_novel_text example_text) /\
  size (files (main E a empty_world).2) = 3%nat.
Proof. repeat split; by vm_compute. Qed.

Lemma series_run_in_sequence_witness :
  (for_each (process_series E a) ["7"; "8"] empty_world).1
  = Raise RequestException.
Proof.
  set (pre := [ {| ep_id := 1; ep_title := "A" |};
                {| ep_id := 2; ep_title := "B" |} ]).
  set (w0 := make_dirs dest (log_request (ReqSeries 7) empty_world)).
  set (w1 := (for_enumerate (download_episode E a dest 3) 1 pre w0).2).
  rewrite (proj2 (proj2 (series_run_in_sequence E a "7" ["8"] empty_world))
             "7" 7 example_series7 pre {| ep_id := 3; ep_title := "C" |} []
             RequestException w1).
  - reflexivity.
  - reflexivity.
  - reflexivity.
  - reflexivity.
  - reflexivity.
  - vm_compute. intros H. discriminate H.
  - vm_compute. reflexivity.
  - reflexivity.
Defined.

(** C1 as stated fails: after the failing episode of series 7, series 8 is
    not processed from the world series 7 left. *)
Lemma later_series_not_processed :
  ~ (forall (E' : env) (a' : args) u rest w,
        (for_each (process_series E' a') (u :: rest) w).2
        = (for_each (process_series E' a') rest
             (process_series E' a' u w).2).2).
Proof.
  intros H. specialize (H E a "7" ["8"] empty_world).
  apply (f_equal requests) in H. vm_compute in H. discriminate H.
Qed.

Lemma file_names_layout_witness :
  1 <= 1 <= 3 /\ 1 <= 2 <= 2 /\
  files (save_novel a dest 1 3 "A" example_text empty_world).2
    !! (dest ++ ["1 - A.txt"]) = Some (parse_novel_text example_text).
Proof.
  split; [lia|]. split; [lia|].
  destruct (file_names_layout E a dest 1 3 2 2 "A" "http://h/b.jpg"
              example_text "" empty_world ltac:(lia) ltac:(lia))
    as (_ & _ & _ & H).
  exact H.
Defined.

(** C2 as stated fails: the name of an image is not its parts joined by
    single hyphens. *)
Lemma image_name_not_hyphen_joined :
  ~ (forall (a' : args) ep_idx n_eps img_idx n_imgs ep_title img_url,
        1 <= ep_idx <= n_eps -> 1 <= img_idx <= n_imgs ->
        image_fname a' ep_idx n_eps img_idx n_imgs ep_title img_url
        = spec_image_fname ep_idx n_eps img_idx n_imgs ep_title
            (List.last (Py.split img_url ".") "")).
Proof.
  intros H. specialize (H a 1 3 2 2 "A" "http://h/b.jpg").
  vm_compute in H. specialize (H ltac:(done) ltac:(done)). discriminate H.
Qed.

Example fnames_run :
  image_fname a 1 3 2 2 "A" "http://h/b.jpg" = "1 - 2 - A.jpg" /\
  spec_image_fname 1 3 2 2 "A" "jpg" = "1-2-A.jpg" /\
  prose_fname a 2 3 "B" = "2 - B.txt" /\
  spec_prose_fname 2 3 "B" = "2-B.txt" /\
  image_fname a 7 125 3 12 "a/b" "http://h/x.y/z.png?k" = "007 - 03 - ab.png?k".
Proof. repeat split; reflexivity. Qed.

Lemma classification_image_first_witness :
  save_episode E a dest 1 3 "A" example_gallery empty_world
  = save_images E a dest 1 3 "A" ["http://h/a.png"; "http://h/b.jpg"]
      empty_world /\
  save_episode E a dest 1 3 "A"
    {| content_imgs := []; body_paras := [""] |} empty_world
  = (Ok tt, put_file (dest ++ ["1 - A.txt"]) "" empty_world).
Proof.
  destruct (classification_image_first E a dest 1 3 "A" example_gallery
              empty_world) as (Hgallery & _ & _).
  destruct (classification_image_first E a dest 1 3 "A"
              {| content_imgs := []; body_paras := [""] |} empty_world)
    as (_ & _ & Hempty).
  split.
  - apply Hgallery. vm_compute. intros H. discriminate H.
  - apply Hempty; [reflexivity | by repeat constructor].
Defined.

Lemma persist_skips_existing_images_witness :
  save_images E a dest 1 3 "A" ["http://h/a.png"; "http://h/b.jpg"]
    (put_file (dest ++ ["1 - 2 - A.jpg"]) "old" empty_world)
  = (Ok tt, put_file (dest ++ ["1 - 1 - A.png"]) "bytes of http://h/a.png"
              (log_request (ReqImage "http://h/a.png")
                 (put_file (dest ++ ["1 - 2 - A.jpg"]) "old" empty_world))).
Proof.
  apply (persist_skips_existing_images E a dest 1 3 "A"
           ["http://h/a.png"] "http://h/b.jpg" []
           (put_file (dest ++ ["1 - 2 - A.jpg"]) "old" empty_world)).
  - by vm_compute.
  - by vm_compute.
Defined.

Lemma rerun_without_force_witness :
  force a = false /\
  files (process_series E a "7" (process_series E a "7" empty_world).2).2
  = files (process_series E a "7" empty_world).2 /\
  requests (process_series E a "7" (process_series E a "7" empty_world).2).2
  = requests (process_series E a "7" empty_world).2 ++ [ReqSeries 7].
Proof.
  split; [reflexivity|].
  destruct (rerun_without_force E a "7" empty_world eq_refl)
    as (_ & Hfiles & Hreq).
  split; [exact Hfiles | exact Hreq].
Defined.

(** C9 as stated fails: the second run repeats the metadata query. *)
Lemma rerun_repeats_metadata_query :
  ~ (forall (E' : env) (a' : args) u w,
        force a' = false ->
        requests (process_series E' a' u (process_series E' a' u w).2).2
        = requests (process_series E' a' u w).2).
Proof.
  intros H. specialize (H E a "8" empty_world eq_refl).
  vm_compute in H. discriminate H.
Qed.

Lemma prose_file_content_witness :
  files (download_episode E a dest 3 2 {| ep_id := 2; ep_title := "B" |}
           empty_world).2 !! (dest ++ ["2 - B.txt"])
  = Some (String.concat (String "010" (String "010" "")) ["one"; "two"]).
Proof.
  apply (prose_file_content E a dest 3 2 {| ep_id := 2; ep_title := "B" |}
           example_text empty_world); reflexivity.
Defined.

End Examples.


(** * Further properties of the script *)

(** ** Indexer: width, read-back and ordering of the labels *)

Section IndexerOrder.

Lemma zfill_length (s : string) (width : nat) :
  String.length (Py.zfill s width) = Nat.max (String.length s) width.
Proof.
  unfold Py.zfill. destruct (Nat.leb_spec width (String.length s)); [lia|].
  destruct s as [|c rest].
  - rewrite length_repeat_char. simpl. lia.
  - destruct (Ascii.eqb c "+" || Ascii.eqb c "-")%char.
    + cbn [String.length]. rewrite length_app_str, length_repeat_char.
      cbn [String.length] in *. lia.
    + rewrite length_app_str, length_repeat_char. lia.
Qed.

Lemma lead0_length_max (num max : Z) :
  String.length (lead0 num max)
  = Nat.max (String.length (Py.str_of_int num))
            (String.length (Py.str_of_int max)).
Proof. apply zfill_length. Qed.

Lemma lead0_nonneg_form (i N : Z) :
  0 <= i ->
  lead0 i N
  = Py.repeat_char "0"
      (String.length (Py.str_of_int N) - String.length (Py.digits i))
    +:+ Py.digits i.
Proof.
  intros Hi. unfold lead0. rewrite (str_of_int_nonneg i) by done.
  destruct (Nat.le_gt_cases (String.length (Py.digits i))
              (String.length (Py.str_of_int N))) as [Hle|Hgt].
  - apply zfill_digits; [apply digits_all_digits | done].
  - unfold Py.zfill.
    destruct (Nat.leb_spec (String.length (Py.str_of_int N))
                (String.length (Py.digits i))); [|lia].
    by replace (_ - _)%nat with 0%nat by lia.
Qed.

Lemma decimal_value_zeros_app k (s : string) :
  decimal_value (Py.repeat_char "0" k +:+ s) = decimal_value s.
Proof.
  unfold decimal_value. rewrite decimal_value_from_app.
  by rewrite (decimal_value_zeros k : decimal_value_from 0 _ = 0).
Qed.

(** The label of a non-negative index reads back as the index, whatever the
    maximum. *)
Lemma lead0_value (i N : Z) : 0 <= i -> decimal_value (lead0 i N) = i.
Proof.
  intros Hi. rewrite lead0_nonneg_form by done.
  rewrite decimal_value_zeros_app. by apply digits_value.
Qed.

(** X1. Distinct indices get distinct labels. *)
Theorem lead0_injective (i j N : Z) :
  0 <= i -> 0 <= j -> lead0 i N = lead0 j N -> i = j.
Proof.
  intros Hi Hj Heq. apply (f_equal decimal_value) in Heq.
  by rewrite !lead0_value in Heq.
Qed.

Lemma lead0_injective_witness :
  0 <= 7 /\ 0 <= 7 /\ lead0 7 125 = lead0 7 125 /\ 7 = 7.
Proof.
  split; [lia|]. split; [lia|]. split; [reflexivity|].
  exact (lead0_injective 7 7 125 ltac:(lia) ltac:(lia) eq_refl).
Defined.

Lemma is_digit_char (c : ascii) :
  is_digit c = true -> exists k, (k < 10)%nat /\ c = Py.digit_char k.
Proof.
  intros H. exists (nat_of_ascii c - 48)%nat.
  destruct c as [[] [] [] [] [] [] [] []]; try discriminate H;
    (split; [vm_compute; lia | reflexivity]).
Qed.

Lemma digit_char_compare k1 k2 :
  (k1 < 10)%nat -> (k2 < 10)%nat ->
  Ascii.compare (Py.digit_char k1) (Py.digit_char k2) = Nat.compare k1 k2.
Proof.
  intros H1 H2.
  do 10 (destruct k1 as [|k1];
         [do 10 (destruct k2 as [|k2]; [reflexivity|]); lia|]).
  lia.
Qed.

Lemma decimal_value_from_acc acc (s : string) :
  decimal_value_from acc s
  = acc * 10 ^ Z.of_nat (String.length s) + decimal_value s.
Proof.
  unfold decimal_value. revert acc.
  induction s as [|c s IH]; intros acc; cbn [decimal_value_from String.length].
  - simpl. lia.
  - rewrite IH, (IH (10 * 0 + _)), Nat2Z.inj_succ, Z.pow_succ_r by lia. lia.
Qed.

Lemma decimal_value_bounds (s : string) :
  all_chars is_digit s = true ->
  0 <= decimal_value s < 10 ^ Z.of_nat (String.length s).
Proof.
  induction s as [|c s IH]; [by vm_compute|].
  cbn [all_chars]. intros [Hc Hs]%andb_prop. specialize (IH Hs).
  destruct (is_digit_char c Hc) as (k & Hk & ->).
  unfold decimal_value. cbn [decimal_value_from String.length].
  rewrite decimal_value_from_acc, digit_value_char by done.
  rewrite Nat2Z.inj_succ, Z.pow_succ_r by lia. nia.
Qed.

(** On digit strings of one length, the lexicographic order is the order of
    the values. *)
Lemma digit_strings_compare (s t : string) :
  all_chars is_digit s = true -> all_chars is_digit t = true ->
  String.length s = String.length t ->
  decimal_value s < decimal_value t ->
  String.compare s t = Lt.
Proof.
  revert t. induction s as [|c s IH]; intros [|d t]; try done.
  cbn [all_chars String.length].
  { intros [Hc Hs]%andb_prop [Hd Ht]%andb_prop [= Hlen].
    destruct (is_digit_char c Hc) as (k1 & Hk1 & ->).
    destruct (is_digit_char d Hd) as (k2 & Hk2 & ->).
    unfold decimal_value. cbn [decimal_value_from String.compare].
    rewrite !decimal_value_from_acc, !digit_value_char, digit_char_compare
      by done.
    pose proof (decimal_value_bounds s Hs).
    pose proof (decimal_value_bounds t Ht).
    rewrite Hlen in *. intros Hlt.
    destruct (Nat.compare_spec k1 k2) as [->|?|?]; [|done|nia].
    apply IH; try done. lia. }
Qed.

(** X2. Sorting the labels of one collection as strings sorts them by index. *)
Theorem lead0_lex_order (i j N : Z) :
  0 <= i < j -> j <= N ->
  String.ltb (lead0 i N) (lead0 j N) = true.
Proof.
  intros Hij HjN. unfold String.ltb.
  rewrite digit_strings_compare; [done | | | |].
  - apply lead0_all_digits. lia.
  - apply lead0_all_digits. lia.
  - rewrite !lead0_length_max, !str_of_int_nonneg by lia.
    pose proof (digits_length_mono i N ltac:(lia)).
    pose proof (digits_length_mono j N ltac:(lia)). lia.
  - rewrite !lead0_value by lia. lia.
Qed.

Lemma lead0_lex_order_witness :
  0 <= 9 < 10 /\ 10 <= 125 /\ String.ltb "009" "010" = true.
Proof.
  split; [lia|]. split; [lia|].
  exact (lead0_lex_order 9 10 125 ltac:(lia) ltac:(lia)).
Defined.

End IndexerOrder.

(** ** PathSanitizer: every setting, composition, and the names it yields *)

Section SanitizerSettings.

Context (a : args).

Lemma char_in_app c (l1 l2 : list ascii) :
  Py.char_in c (l1 ++ l2) = Py.char_in c l1 || Py.char_in c l2.
Proof. apply existsb_app. Qed.

Lemma filter_chars_ext (k1 k2 : ascii -> bool) (s : string) :
  (forall c, k1 c = k2 c) -> Py.filter_chars k1 s = Py.filter_chars k2 s.
Proof.
  intros Hk. induction s as [|c s IH]; [done|]. simpl. by rewrite Hk, IH.
Qed.

Lemma filter_chars_compose (k1 k2 : ascii -> bool) (s : string) :
  Py.filter_chars k2 (Py.filter_chars k1 s)
  = Py.filter_chars (fun c => k1 c && k2 c) s.
Proof.
  induction s as [|c s IH]; [done|]. simpl.
  destruct (k1 c); simpl; [destruct (k2 c)|]; by rewrite IH.
Qed.

Lemma count_char_app c (s1 s2 : string) :
  count_char c (s1 +:+ s2) = (count_char c s1 + count_char c s2)%nat.
Proof.
  induction s1 as [|d s1 IH]; [done|].
  rewrite app_cons. cbn [count_char]. rewrite IH. lia.
Qed.

Lemma count_char_check_path c (path : string) (slash fat : bool) :
  count_char c (check_path path slash fat)
  = if (slash && Ascii.eqb c "/") || (fat && Py.char_in c fat_chars)
    then 0%nat else count_char c path.
Proof.
  unfold check_path. rewrite count_char_filter, char_in_app.
  assert (Py.char_in c ["/"%char] = Ascii.eqb c "/") as Hs
    by (unfold Py.char_in; cbn [existsb]; apply orb_false_r).
  assert (Py.char_in c [] = false) as Hn by done.
  destruct slash, fat; rewrite ?Hs, ?Hn; cbn [andb orb];
    by destruct (Ascii.eqb c "/"), (Py.char_in c fat_chars).
Qed.

(** X3. Under any of the four settings, [check_path] deletes the slash exactly
    when [slash] is on and each of the nine characters [? < > \ : * | ^] and
    the double quote (code 034) exactly when [fat] is on, and keeps every
    other character with its multiplicity; with both switches off the string
    comes back as it is. *)
Theorem check_path_all_settings (path : string) (slash fat : bool) :
  (forall c,
      count_char c (check_path path slash fat)
      = if (slash && Ascii.eqb c "/")
           || (fat && existsb (Ascii.eqb c)
                        ["?"; "<"; ">"; "\"; ":"; "*"; "|"; "034"; "^"]%char)
        then 0%nat else count_char c path) /\
  check_path path false false = path.
Proof.
  split.
  - intros c. rewrite count_char_check_path.
    unfold Py.char_in, fat_chars. by destruct (_ || _).
  - unfold check_path. induction path as [|c s IH]; [done|].
    cbn in *. by rewrite IH.
Qed.

(** X4. Sanitizing twice, under whatever settings, is sanitizing once under the
    union of the settings; in particular the order of two passes does not
    matter. *)
Theorem check_path_compose (path : string) (s1 f1 s2 f2 : bool) :
  check_path (check_path path s1 f1) s2 f2
  = check_path path (s1 || s2) (f1 || f2).
Proof.
  unfold check_path. rewrite filter_chars_compose.
  apply filter_chars_ext. intros c. rewrite !char_in_app.
  set (x := Py.char_in c ["/"%char]). set (y := Py.char_in c fat_chars).
  assert (Py.char_in c [] = false) as Hnil by done.
  destruct s1, f1, s2, f2; cbn [orb]; fold x y; rewrite ?Hnil;
    by destruct x, y.
Qed.

(** X5. The three names the script joins to a path (destination directory, image
    file, text file) are single segments: never empty and without slash,
    whatever the title, the identifier and the URL. *)
Theorem joined_names_are_segments
    (name seriesName ep_title img_url : string)
    (ep_idx n_eps img_idx n_imgs : Z) :
  let is_segment (s : string) := s <> "" /\ count_char "/" s = 0%nat in
  (exists seg, save_path a name seriesName = basePath a ++ [seg] /\
               is_segment seg) /\
  is_segment (image_fname a ep_idx n_eps img_idx n_imgs ep_title img_url) /\
  is_segment (prose_fname a ep_idx n_eps ep_title).
Proof.
  intros is_segment.
  assert (forall s, (1 <= count_char " " s)%nat ->
            is_segment (check_path s true (restrict_characters a))) as Hseg.
  { intros s Hs. split.
    - intros Hnil.
      pose proof (count_char_check_path " " s true (restrict_characters a))
        as Hc.
      rewrite Hnil in Hc. destruct (restrict_characters a); simpl in Hc; lia.
    - rewrite count_char_check_path. by destruct (restrict_characters a). }
  split; [|split].
  - eexists. split; [reflexivity|]. apply Hseg.
    rewrite !count_char_app. simpl. lia.
  - apply Hseg. rewrite !count_char_app. simpl. lia.
  - apply Hseg. rewrite !count_char_app. simpl. lia.
Qed.

End SanitizerSettings.

(** ** SeriesResolver: failure, shape of the result, longer URLs *)

Section ResolverMore.

Lemma get_series_id_http (s : string) (i : nat) :
  Py.startswith s "http" = true ->
  Py.find "/series/" s = Some i ->
  get_series_id s = Ok (until_slash (Py.drop (i + 8) s)).
Proof.
  intros Hhttp Hfind.
  destruct (until_slash_spec (Py.drop (i + 8) s)) as (r & Heq & Hr & Hc).
  by apply (get_series_id_segment s _ r i).
Qed.

Lemma get_series_id_no_marker (s : string) :
  Py.startswith s "http" = true ->
  Py.find "/series/" s = None ->
  get_series_id s = Raise IndexError.
Proof.
  intros Hhttp Hfind. unfold get_series_id, Py.split. rewrite Hhttp.
  destruct (String.length s); cbn [Py.split_fuel]; by rewrite ?Hfind.
Qed.

(** X6. The resolver fails on exactly one kind of input, and in one way: a
    string that starts with [http] and has no [/series/] in it raises
    [IndexError]. *)
Theorem get_series_id_fails_iff (s : string) (e : exn) :
  get_series_id s = Raise e <->
  e = IndexError /\ Py.startswith s "http" = true /\
  Py.find "/series/" s = None.
Proof.
  split.
  - intros Hraise. destruct (Py.startswith s "http") eqn:Hhttp.
    + destruct (Py.find "/series/" s) as [i|] eqn:Hfind.
      * by rewrite (get_series_id_http s i) in Hraise.
      * rewrite get_series_id_no_marker in Hraise by done.
        by injection Hraise as <-.
    + unfold get_series_id in Hraise. by rewrite Hhttp in Hraise.
  - intros (-> & Hhttp & Hfind). by apply get_series_id_no_marker.
Qed.

(** X7. The identifier resolved from a URL is a single path segment. *)
Theorem get_series_id_url_no_slash (s r : string) :
  Py.startswith s "http" = true ->
  get_series_id s = Ok r ->
  count_char "/" r = 0%nat.
Proof.
  intros Hhttp Hok. destruct (Py.find "/series/" s) as [i|] eqn:Hfind.
  - rewrite (get_series_id_http s i) in Hok by done. injection Hok as <-.
    by destruct (until_slash_spec (Py.drop (i + 8) s)) as (? & _ & _ & ?).
  - by rewrite get_series_id_no_marker in Hok.
Qed.

Lemma get_series_id_url_no_slash_witness :
  Py.startswith "https://tapas.io/series/Erma/info" "http" = true /\
  get_series_id "https://tapas.io/series/Erma/info" = Ok "Erma" /\
  count_char "/" "Erma" = 0%nat.
Proof.
  split; [reflexivity|]. split; [reflexivity|].
  exact (get_series_id_url_no_slash "https://tapas.io/series/Erma/info" "Erma"
           eq_refl eq_refl).
Defined.

Lemma prefix_app_l (p s x : string) :
  String.prefix p s = true -> String.prefix p (s +:+ x) = true.
Proof.
  revert s. induction p as [|c p IH]; intros [|d s]; simpl; try done.
  - by destruct x.
  - destruct (ascii_dec c d); [apply IH | done].
Qed.

Lemma prefix_app_inv (p s x : string) :
  String.prefix p (s +:+ x) = true ->
  (String.length p <= String.length s)%nat ->
  String.prefix p s = true.
Proof.
  revert s. induction p as [|c p IH]; intros [|d s]; simpl; try done; try lia.
  destruct (ascii_dec c d); [|done].
  intros H Hlen. apply IH; [done | lia].
Qed.

Lemma find_app (sep s x : string) (i : nat) :
  Py.find sep s = Some i -> Py.find sep (s +:+ x) = Some i.
Proof.
  revert i. induction s as [|c s IH]; intros i Hfind.
  - cbn [Py.find] in Hfind.
    destruct (String.prefix sep "") eqn:Hp; [|done].
    injection Hfind as <-. apply find_prefix.
    by apply (prefix_app_l sep "" x).
  - pose proof (find_Some_length _ _ _ Hfind) as Hlen.
    cbn [Py.find] in Hfind.
    destruct (String.prefix sep (String c s)) eqn:Hp.
    + injection Hfind as <-. apply find_prefix. by apply prefix_app_l.
    + destruct (Py.find sep s) as [j|] eqn:Hj; [|done].
      injection Hfind as <-. rewrite app_cons. cbn [Py.find].
      rewrite <- app_cons.
      destruct (String.prefix sep (String c s +:+ x)) eqn:Hpx.
      * apply prefix_app_inv in Hpx; [congruence | lia].
      * by rewrite (IH j).
Qed.

Lemma drop_app_le (s x : string) (i : nat) :
  (i <= String.length s)%nat -> Py.drop i (s +:+ x) = Py.drop i s +:+ x.
Proof.
  revert i. induction s as [|c s IH]; intros [|i]; simpl; try done; try lia.
  intros Hi. apply IH. lia.
Qed.

Lemma until_slash_app_slash (d t : string) :
  until_slash (d +:+ String "/" t) = until_slash d.
Proof.
  induction d as [|c d IH]; [done|].
  rewrite app_cons. simpl. destruct (Ascii.eqb c "/"); [done|]. by rewrite IH.
Qed.

(** X8. Further path components after a series URL do not change what it
    resolves to. *)
Theorem get_series_id_longer_url (s t r : string) :
  Py.startswith s "http" = true ->
  get_series_id s = Ok r ->
  get_series_id (s +:+ "/" +:+ t) = Ok r.
Proof.
  intros Hhttp Hok. change ("/" +:+ t) with (String "/" t).
  destruct (Py.find "/series/" s) as [i|] eqn:Hfind.
  - rewrite (get_series_id_http s i) in Hok by done. injection Hok as <-.
    pose proof (find_Some_length _ _ _ Hfind) as Hlen. simpl in Hlen.
    rewrite (get_series_id_http _ i).
    + rewrite drop_app_le by done.
      by rewrite (until_slash_app_slash (Py.drop (i + 8) s) t).
    + by apply prefix_app_l.
    + by apply find_app.
  - by rewrite get_series_id_no_marker in Hok.
Qed.

Lemma get_series_id_longer_url_witness :
  get_series_id ("https://tapas.io/series/Erma" +:+ "/" +:+ "info") = Ok "Erma".
Proof.
  apply (get_series_id_longer_url "https://tapas.io/series/Erma" "info" "Erma");
    reflexivity.
Defined.

End ResolverMore.

(** ** ContentClassifier: the extracted URLs and the written text *)

Section ClassifierMore.

Lemma prefix_empty (s : string) : String.prefix "" s = true.
Proof. by destruct s. Qed.

Lemma find_char_before c (s : string) :
  match Py.find (String c "") s with
  | Some i => Py.take i s = before_char c s
  | None => before_char c s = s
  end.
Proof.
  induction s as [|d s IH]; [done|].
  cbn [Py.find String.prefix before_char].
  destruct (ascii_dec c d) as [<-|Hne].
  - rewrite prefix_empty, Ascii.eqb_refl. done.
  - destruct (Ascii.eqb_spec d c) as [->|_]; [done|].
    destruct (Py.find (String c "") s) as [i|]; cbn; by rewrite IH.
Qed.

Lemma split_char_first c (s : string) :
  List.hd "" (Py.split s (String c "")) = before_char c s.
Proof.
  unfold Py.split. destruct s as [|d s]; [done|].
  cbn [String.length Py.split_fuel].
  pose proof (find_char_before c (String d s)) as H.
  destruct (Py.find (String c "") (String d s)); by cbn [List.hd].
Qed.

Lemma count_before_char c (s : string) : count_char c (before_char c s) = 0%nat.
Proof.
  induction s as [|d s IH]; [done|]. cbn [before_char].
  destruct (Ascii.eqb_spec d c) as [->|Hne]; [done|].
  cbn [count_char]. destruct (Ascii.eqb_spec c d); [congruence | done].
Qed.

Lemma image_url_src_of (img : img_element) :
  image_url img =
    match src_of img with
    | Some (String c s) => Some (before_char "?" (String c s))
    | _ => None
    end.
Proof.
  unfold image_url, src_of. destruct (attr_src img) as [[|c s]|]; done.
Qed.

Lemma parse_comic_images_loop_omap (elems : list img_element) :
  parse_comic_images_loop elems [] = omap image_url elems.
Proof.
  induction elems as [|img elems IH]; [done|].
  cbn [parse_comic_images_loop omap list_omap].
  rewrite (image_url_src_of img).
  destruct (src_of img) as [[|c s]|]; try done.
  rewrite parse_comic_images_loop_acc, IH, split_char_first. done.
Qed.

(** X9. The gallery is made, in document order, of the source of every image
    element that has a non-empty one ([src], else [data-src]), cut at its
    first question mark; no URL of the gallery contains a question mark. *)
Theorem parse_comic_images_urls (doc : html) :
  parse_comic_images doc = omap image_url (content_imgs doc) /\
  Forall (fun u => count_char "?" u = 0%nat) (parse_comic_images doc).
Proof.
  unfold parse_comic_images. rewrite parse_comic_images_loop_omap.
  split; [done|]. apply Forall_forall. intros u Hu.
  apply list_elem_of_omap in Hu as (img & _ & Himg).
  rewrite image_url_src_of in Himg.
  destruct (src_of img) as [[|c s]|]; try done.
  injection Himg as <-. apply (count_before_char "?" (String c s)).
Qed.

Lemma concat_nonempty_nil sep (l : list string) :
  Forall (fun t => t <> "") l -> String.concat sep l = "" -> l = [].
Proof.
  intros Hl. destruct Hl as [|x l Hx Hl]; [done|]. cbn [String.concat].
  destruct l as [|y l]; [done|]. by destruct x.
Qed.

(** X10. The text written for a prose episode is empty exactly when no paragraph
    of the page has text. *)
Theorem parse_novel_text_empty_iff (doc : html) :
  parse_novel_text doc = "" <-> Forall (fun t => t = "") (body_paras doc).
Proof.
  rewrite parse_novel_text_filter. split.
  - intros H. apply concat_nonempty_nil in H.
    + apply Forall_forall. intros t Ht.
      destruct (decide (t = "")) as [|Hne]; [done|].
      assert (t ∈ filter (fun t => t <> "") (body_paras doc)) as Hin
        by by apply list_elem_of_filter.
      rewrite H in Hin. by apply elem_of_nil in Hin.
    + apply Forall_forall. by intros t [? _]%list_elem_of_filter.
  - intros H. induction H as [|t ps -> _ IH]; [done|].
    by rewrite filter_cons_False by (intros Hne; by apply Hne).
Qed.

Lemma split_join_pieces fuel (c : ascii) (sep' : string) (ps : list string) :
  ps <> [] ->
  Forall (fun t => count_char c t = 0%nat) ps ->
  (String.length (String.concat (String c sep') ps) <= fuel)%nat ->
  Py.split_fuel fuel (String c sep') (String.concat (String c sep') ps) = ps.
Proof.
  set (sep := String c sep').
  revert fuel. induction ps as [|x ps IH]; intros fuel Hne Hps Hfuel; [done|].
  apply Forall_cons in Hps as [Hx Hps].
  destruct ps as [|y ps].
  - cbn [String.concat] in *.
    assert (Py.find sep x = None) as Hfind.
    { rewrite <- (app_empty_r x). unfold sep. by rewrite find_skip. }
    destruct fuel; cbn [Py.split_fuel]; by rewrite ?Hfind.
  - assert (String.concat sep (x :: y :: ps)
            = x +:+ sep +:+ String.concat sep (y :: ps)) as Hcat by done.
    rewrite Hcat in Hfuel |- *.
    set (R := String.concat sep (y :: ps)) in *.
    assert (Py.find sep (x +:+ sep +:+ R) = Some (String.length x + 0)%nat)
      as Hfind.
    { unfold sep at 1. rewrite find_skip by done. fold sep.
      by rewrite (find_prefix sep (sep +:+ R)) by apply prefix_app. }
    rewrite !length_app_str in Hfuel.
    destruct fuel as [|fuel]; [unfold sep in Hfuel; simpl in Hfuel; lia|].
    cbn [Py.split_fuel]. rewrite Hfind, take_app_length. cbn [Py.take].
    rewrite app_empty_r. f_equal.
    rewrite <- Nat.add_assoc, drop_app_length.
    rewrite (Nat.add_comm 0), (drop_app_length sep R 0). cbn [Py.drop].
    apply IH; [done | done |].
    unfold sep in Hfuel. cbn [String.length] in Hfuel. lia.
Qed.

(** X11. When no paragraph text contains a line feed, the paragraphs can be read
    back from the written text by splitting it at the double line feed. *)
Theorem parse_novel_text_split (doc : html) :
  let paras := filter (fun t => t <> "") (body_paras doc) in
  paras <> [] ->
  Forall (fun t => count_char "010" t = 0%nat) paras ->
  Py.split (parse_novel_text doc) newline2 = paras.
Proof.
  intros paras Hne Hlf. rewrite parse_novel_text_filter. fold paras.
  unfold Py.split, newline2. by apply split_join_pieces.
Qed.

Lemma parse_novel_text_split_witness :
  Py.split (parse_novel_text example_text) newline2 = ["one"; "two"].
Proof.
  apply (parse_novel_text_split example_text);
    [by vm_compute | by repeat constructor].
Defined.

End ClassifierMore.

(** ** The whole run: what it keeps and where it writes *)

Section RunInvariant.

Context (E : env) (a : args).

(** A property of the world kept by the three updates the script makes
    (logging a request, writing a file two levels below the base path,
    creating a directory one level below it) is kept by every part of the
    main loop. *)
Context (P : world -> Prop).
Hypothesis P_log : forall r w, P w -> P (log_request r w).
Hypothesis P_put : forall dir fname data w,
    P w -> P (put_file (basePath a ++ [dir; fname]) data w).
Hypothesis P_mkdir : forall dir w, P w -> P (make_dirs (basePath a ++ [dir]) w).

Lemma save_episode_invariant dir ep_idx n_eps ep_title doc :
  stable P (save_episode E a (basePath a ++ [dir]) ep_idx n_eps ep_title doc).
Proof.
  unfold save_episode. destruct (parse_comic_images doc) as [|img imgs].
  - intros w Hw. unfold save_novel, write_file. cbn [snd].
    rewrite <- app_assoc. by apply P_put.
  - apply stable_for_enumerate. intros i x w Hw. rewrite save_image_run.
    destruct (file_exists _ w); [done|].
    destruct (get_image E x); cbn [snd]; [|by apply P_log].
    rewrite <- app_assoc. by apply P_put, P_log.
Qed.

Lemma download_episodes_invariant dir episodes :
  stable P (download_episodes E a (basePath a ++ [dir]) episodes).
Proof.
  apply stable_for_enumerate. intros i ep.
  apply stable_bind; [|intros doc; apply save_episode_invariant].
  apply stable_bind; [intros w Hw; by apply P_log | intros _; apply stable_lift].
Qed.

Lemma process_series_invariant u : stable P (process_series E a u).
Proof.
  intros w Hw. rewrite process_series_run.
  destruct (get_series_id u) as [seriesName|]; [|done].
  destruct (py_int E seriesName) as [n|]; [|done].
  destruct (post_graphql E n) as [ser|]; cbn [snd]; [|by apply P_log].
  cbv zeta. unfold save_path.
  destruct (file_exists _ w); [destruct (force a)|].
  - by apply download_episodes_invariant, P_log.
  - by apply P_log.
  - by apply download_episodes_invariant, P_mkdir, P_log.
Qed.

Lemma main_invariant : stable P (main E a).
Proof. apply stable_for_each, process_series_invariant. Qed.

End RunInvariant.

Section RunFacts.

Context (E : env) (a : args).

(** X12. A run only adds: every directory and file that existed before exists
    after it, whatever the outcome, and the requests made before are the
    beginning of the request log after it. *)
Theorem run_only_adds (w : world) :
  extends w (main E a w).2 /\
  forall p, file_exists p w = true -> file_exists p (main E a w).2 = true.
Proof.
  split.
  - apply (main_invariant E a (extends w)).
    + intros r w1 (Hd & Hf & Hr). repeat split; [done | done |].
      cbn [requests log_request]. by apply prefix_app_r.
    + intros dir fname data w1 (Hd & Hf & Hr). repeat split; [done | | done].
      cbn [files put_file]. rewrite dom_insert_L. set_solver.
    + intros dir w1 (Hd & Hf & Hr). repeat split; [| done | done].
      cbn [dirs make_dirs]. set_solver.
    + done.
  - intros p Hp.
    apply (main_invariant E a (fun w' => file_exists p w' = true));
      [done | | | done].
    + intros dir fname data w1. apply file_exists_put.
    + intros dir w1. apply file_exists_make_dirs.
Qed.

(** X13. A run writes nowhere but two levels below the base path: the content of
    any other file path, present or absent, is what it was. *)
Theorem run_writes_below_base (w : world) (p : path) :
  (forall dir fname, p <> basePath a ++ [dir; fname]) ->
  files (main E a w).2 !! p = files w !! p.
Proof.
  intros Hp.
  apply (main_invariant E a (fun w' => files w' !! p = files w !! p));
    [done | | done | done].
  intros dir fname data w1 Hw1. cbn [files put_file].
  rewrite lookup_insert_ne; [done|]. intros Heq. by apply (Hp dir fname).
Qed.

(** X14. Identifiers that [int()] rejects are passed over in silence: when every
    input resolves and none is numeric, the run returns normally without a
    single request or change. *)
Theorem non_numeric_names_do_nothing (w : world) :
  Forall (fun u => exists seriesName,
            get_series_id u = Ok seriesName /\ py_int E seriesName = None)
         (url a) ->
  main E a w = (Ok tt, w).
Proof.
  unfold main. induction 1 as [|u us (seriesName & Hid & Hint) _ IH]; [done|].
  cbn [for_each]. rewrite bind_run, process_series_run, Hid, Hint. apply IH.
Qed.

(** X15. A URL without [/series/] ends the run on the spot: [IndexError] is
    raised before any request is made, and the identifiers after it are
    never looked at. *)
Theorem malformed_url_ends_run (u : string) (rest : list string) (w : world) :
  Py.startswith u "http" = true ->
  Py.find "/series/" u = None ->
  for_each (process_series E a) (u :: rest) w = (Raise IndexError, w).
Proof.
  intros Hhttp Hfind. cbn [for_each].
  rewrite bind_run, process_series_run.
  by rewrite get_series_id_no_marker.
Qed.

End RunFacts.

Lemma run_writes_below_base_witness :
  files (main example_env example_args
           (put_file ["home"; "notes.txt"] "mine" empty_world)).2
    !! ["home"; "notes.txt"] = Some "mine".
Proof.
  rewrite (run_writes_below_base example_env example_args).
  - reflexivity.
  - intros dir fname H. discriminate H.
Defined.

Lemma non_numeric_names_do_nothing_witness :
  main example_env
    {| url := ["Erma"; "RavenWolf"]; force := false;
       restrict_characters := false; basePath := ["out"] |} empty_world
  = (Ok tt, empty_world).
Proof.
  apply (non_numeric_names_do_nothing example_env).
  repeat constructor; eexists; (split; [reflexivity | reflexivity]).
Defined.

Lemma malformed_url_ends_run_witness :
  for_each (process_series example_env example_args)
    ["https://tapas.io/Erma"; "7"] empty_world
  = (Raise IndexError, empty_world).
Proof.
  apply (malformed_url_ends_run example_env example_args); reflexivity.
Defined.


(** ** File names tell the indices apart *)

Section NamesApart.

Context (a : args).

Lemma digit_prefix_unique (s t x y : string) :
  all_chars is_digit s = true -> all_chars is_digit t = true ->
  s +:+ String " " x = t +:+ String " " y -> s = t /\ x = y.
Proof.
  revert t. induction s as [|c s IH]; intros [|d t]; cbn [all_chars].
  - intros _ _ [= ->]. done.
  - intros _ [Hd _]%andb_prop [= <- _]. done.
  - intros [Hc _]%andb_prop _ [= -> _]. done.
  - intros [_ Hs]%andb_prop [_ Ht]%andb_prop. rewrite !app_cons.
    intros [= -> Heq]. destruct (IH t Hs Ht Heq) as [-> ->]. done.
Qed.

Lemma lead0_prefix_unique (i j N M : Z) (x y : string) :
  0 <= i -> 0 <= j ->
  lead0 i N +:+ String " " x = lead0 j M +:+ String " " y ->
  lead0 i N = lead0 j M /\ x = y.
Proof.
  intros Hi Hj. apply digit_prefix_unique; by apply lead0_all_digits.
Qed.

Lemma lead0_same_max_inj (i j N M : Z) :
  0 <= i -> 0 <= j -> lead0 i N = lead0 j M -> i = j.
Proof.
  intros Hi Hj Heq. apply (f_equal decimal_value) in Heq.
  by rewrite !lead0_value in Heq.
Qed.

Lemma image_fname_inj ep_idx ep_idx' n_eps n_eps' img_idx img_idx'
    n_imgs n_imgs' ep_title ep_title' img_url img_url' :
  0 <= ep_idx -> 0 <= ep_idx' -> 0 <= img_idx -> 0 <= img_idx' ->
  image_fname a ep_idx n_eps img_idx n_imgs ep_title img_url
  = image_fname a ep_idx' n_eps' img_idx' n_imgs' ep_title' img_url' ->
  ep_idx = ep_idx' /\ img_idx = img_idx'.
Proof.
  intros He He' Hi Hi'. rewrite !image_fname_parts by done.
  change (" - " +:+ ?r) with (String " " (String "-" (String " " r))).
  intros [Hep [= Hrest]]%lead0_prefix_unique; [|done..].
  apply lead0_prefix_unique in Hrest as [Himg _]; [|done..].
  split; by eapply lead0_same_max_inj.
Qed.

Lemma prose_fname_inj ep_idx ep_idx' n_eps n_eps' ep_title ep_title' :
  0 <= ep_idx -> 0 <= ep_idx' ->
  prose_fname a ep_idx n_eps ep_title
  = prose_fname a ep_idx' n_eps' ep_title' ->
  ep_idx = ep_idx'.
Proof.
  intros He He'. rewrite !prose_fname_parts by done.
  change (" - " +:+ ?r) with (String " " (String "-" (String " " r))).
  intros [Hep _]%lead0_prefix_unique; [|done..].
  by eapply lead0_same_max_inj.
Qed.

Lemma image_prose_fname_inj ep_idx ep_idx' n_eps n_eps' img_idx n_imgs
    ep_title ep_title' img_url :
  0 <= ep_idx -> 0 <= ep_idx' -> 0 <= img_idx ->
  image_fname a ep_idx n_eps img_idx n_imgs ep_title img_url
  = prose_fname a ep_idx' n_eps' ep_title' ->
  ep_idx = ep_idx'.
Proof.
  intros He He' Hi. rewrite image_fname_parts, prose_fname_parts by done.
  change (" - " +:+ ?r) with (String " " (String "-" (String " " r))).
  intros [Hep _]%lead0_prefix_unique; [|done..].
  by eapply lead0_same_max_inj.
Qed.

(** X16. A file name determines the episode it belongs to, and an image name
    also its position in the gallery, whatever the titles, the URLs and the
    sizes of the collections the indices were padded for (each gallery has
    its own size): files of different episodes or of different images never
    share a name. *)
Theorem file_names_identify_indices
    ep_idx ep_idx' n_eps n_eps' img_idx img_idx' n_imgs n_imgs'
    ep_title ep_title' img_url img_url' :
  0 <= ep_idx -> 0 <= ep_idx' -> 0 <= img_idx -> 0 <= img_idx' ->
  (image_fname a ep_idx n_eps img_idx n_imgs ep_title img_url
   = image_fname a ep_idx' n_eps' img_idx' n_imgs' ep_title' img_url' ->
   ep_idx = ep_idx' /\ img_idx = img_idx') /\
  (prose_fname a ep_idx n_eps ep_title
   = prose_fname a ep_idx' n_eps' ep_title' ->
   ep_idx = ep_idx') /\
  (image_fname a ep_idx n_eps img_idx n_imgs ep_title img_url
   = prose_fname a ep_idx' n_eps' ep_title' ->
   ep_idx = ep_idx').
Proof.
  intros He He' Hi Hi'. split; [|split].
  - by apply image_fname_inj.
  - by apply prose_fname_inj.
  - by apply image_prose_fname_inj.
Qed.

End NamesApart.

Lemma file_names_identify_indices_witness :
  0 <= 1 /\ 0 <= 2 /\
  prose_fname example_args 1 3 "A" <> prose_fname example_args 2 3 "A" /\
  image_fname example_args 1 3 2 5 "A" "http://h/b.jpg"
  <> image_fname example_args 2 3 2 12 "A" "http://h/b.jpg".
Proof.
  split; [lia|]. split; [lia|].
  destruct (file_names_identify_indices example_args 1 2 3 3 2 2 5 12
              "A" "A" "http://h/b.jpg" "http://h/b.jpg"
              ltac:(lia) ltac:(lia) ltac:(lia) ltac:(lia))
    as (Himage & Hprose & _).
  split.
  - intros Heq. specialize (Hprose Heq). discriminate Hprose.
  - intros Heq. destruct (Himage Heq) as [Hep _]. discriminate Hep.
Defined.

(** ** Persister: resuming and repeating *)

Section PersisterMore.

Context (E : env) (a : args).
Context (savePath : path) (ep_idx n_eps n_imgs : Z) (ep_title : string).

#[local] Abbreviation body :=
  (save_image E a savePath ep_idx n_eps n_imgs ep_title).
#[local] Abbreviation fpath i u :=
  (savePath ++ [image_fname a ep_idx n_eps i n_imgs ep_title u]).

Lemma save_image_keeps_existing p img_idx img_url :
  stable (fun w => file_exists p w = true) (body img_idx img_url).
Proof.
  intros w Hw. rewrite save_image_run.
  destruct (file_exists (_ ++ _) w); [exact Hw|].
  destruct (get_image E img_url); [by apply file_exists_put | exact Hw].
Qed.

Lemma save_image_then_exists img_idx img_url w w1 :
  body img_idx img_url w = (Ok tt, w1) ->
  file_exists (fpath img_idx img_url) w1 = true.
Proof.
  rewrite save_image_run.
  destruct (file_exists (fpath img_idx img_url) w) eqn:Hex.
  - by intros [= <-].
  - destruct (get_image E img_url); [|done]. intros [= <-].
    unfold file_exists. cbn [files dirs put_file log_request].
    rewrite lookup_insert_eq. apply orb_true_intro. right.
    by apply bool_decide_eq_true.
Qed.

Lemma images_all_exist_noop start (imgs : list string) w :
  (forall k u, imgs !! k = Some u ->
               file_exists (fpath (start + Z.of_nat k) u) w = true) ->
  for_enumerate body start imgs w = (Ok tt, w).
Proof.
  revert start. induction imgs as [|x imgs IH]; intros start Hall; [done|].
  cbn [for_enumerate]. rewrite bind_run, save_image_run.
  pose proof (Hall 0%nat x eq_refl) as H0. rewrite Z.add_0_r in H0.
  rewrite H0. apply IH. intros k u Hk.
  replace (start + 1 + Z.of_nat k) with (start + Z.of_nat (S k)) by lia.
  by apply Hall.
Qed.

Lemma images_exist_after start (imgs : list string) w w1 :
  for_enumerate body start imgs w = (Ok tt, w1) ->
  forall k u, imgs !! k = Some u ->
              file_exists (fpath (start + Z.of_nat k) u) w1 = true.
Proof.
  revert start w. induction imgs as [|x imgs IH]; intros start w Hrun k u Hk;
    [done|].
  cbn [for_enumerate] in Hrun. rewrite bind_run in Hrun.
  destruct (body start x w) as [[[]|e] w'] eqn:Hbody; [|done].
  destruct k as [|k].
  - injection Hk as <-. rewrite Z.add_0_r.
    apply save_image_then_exists in Hbody.
    pose proof (stable_for_enumerate
                  (fun w0 => file_exists (fpath start x) w0 = true)
                  body (start + 1) imgs
                  (fun i y => save_image_keeps_existing _ i y) w' Hbody) as H.
    by rewrite Hrun in H.
  - replace (start + Z.of_nat (S k)) with (start + 1 + Z.of_nat k) by lia.
    by apply (IH (start + 1) w').
Qed.

Lemma for_enumerate_ranged {A} (P : world -> Prop)
    (f : Z -> A -> M unit) start (l : list A) :
  (forall i x, start <= i < start + len l -> stable P (f i x)) ->
  stable P (for_enumerate f start l).
Proof.
  revert start. induction l as [|x l IH]; intros start Hf; [by intros w Hw|].
  unfold len in *. cbn [length] in Hf.
  apply stable_bind; [apply Hf; lia|]. intros _. apply IH.
  intros i y Hi. apply Hf. lia.
Qed.

End PersisterMore.

Section PersisterRepeat.

Context (E : env) (a : args).

(** X17. Resuming a gallery whose files are all there asks for nothing and
    changes nothing. *)
Theorem gallery_resume_is_noop savePath ep_idx n_eps ep_title imgs w :
  (forall k u, imgs !! k = Some u ->
     file_exists
       (savePath ++
          [image_fname a ep_idx n_eps (1 + Z.of_nat k) (len imgs) ep_title u])
       w = true) ->
  save_images E a savePath ep_idx n_eps ep_title imgs w = (Ok tt, w).
Proof. apply images_all_exist_noop. Qed.

(** X18. Persisting an episode that was just persisted changes nothing: no
    request, no directory, no file content. *)
Theorem save_episode_twice savePath ep_idx n_eps ep_title doc w w1 :
  save_episode E a savePath ep_idx n_eps ep_title doc w = (Ok tt, w1) ->
  save_episode E a savePath ep_idx n_eps ep_title doc w1 = (Ok tt, w1).
Proof.
  unfold save_episode. destruct (parse_comic_images doc) as [|img imgs].
  - unfold save_novel, write_file. intros [= <-]. f_equal.
    unfold put_file. cbn [dirs files requests]. f_equal.
    apply insert_insert_eq.
  - intros Hrun. apply images_all_exist_noop.
    by apply (images_exist_after E a _ _ _ _ _ 1 _ w).
Qed.

(** X19. After a gallery loop that went through, every image whose file was not
    there before holds the bytes its URL answered with. *)
Theorem gallery_stores_every_image
    savePath ep_idx n_eps ep_title imgs w w1 k u data :
  0 <= ep_idx ->
  save_images E a savePath ep_idx n_eps ep_title imgs w = (Ok tt, w1) ->
  imgs !! k = Some u ->
  file_exists
    (savePath ++
       [image_fname a ep_idx n_eps (1 + Z.of_nat k) (len imgs) ep_title u])
    w = false ->
  get_image E u = Ok data ->
  files w1
    !! (savePath ++
          [image_fname a ep_idx n_eps (1 + Z.of_nat k) (len imgs) ep_title u])
  = Some data.
Proof.
  intros He Hrun Hk Hfresh Hget. unfold save_images in Hrun.
  set (n_imgs := len imgs) in *.
  set (p := savePath ++
              [image_fname a ep_idx n_eps (1 + Z.of_nat k) n_imgs ep_title u])
    in *.
  pose proof (lookup_lt_Some _ _ _ Hk) as Hlt.
  rewrite <- (take_drop_middle imgs k u Hk) in Hrun.
  rewrite for_enumerate_app in Hrun.
  assert (len (take k imgs) = Z.of_nat k) as Hlen
    by (unfold len; rewrite length_take; lia).
  rewrite Hlen in Hrun.
  pose proof (for_enumerate_ranged (fun w0 => file_exists p w0 = false)
                (save_image E a savePath ep_idx n_eps n_imgs ep_title)
                1 (take k imgs)) as Hpre.
  destruct (for_enumerate _ 1 (take k imgs) w) as [[[]|e] wa] eqn:Hprerun;
    [|done].
  assert (file_exists p wa = false) as Hwa.
  { assert (wa = (for_enumerate
                    (save_image E a savePath ep_idx n_eps n_imgs ep_title)
                    1 (take k imgs) w).2) as -> by by rewrite Hprerun.
    apply Hpre; [|done]. intros i x Hi w0 Hw0. rewrite Hlen in Hi.
    rewrite save_image_run.
    destruct (file_exists (savePath ++ _) w0); [done|].
    destruct (get_image E x); [|done].
    cbn [snd]. unfold file_exists in *. cbn [dirs files put_file log_request].
    rewrite lookup_insert_ne; [done|].
    intros [_ Heq]%app_inj_2; [|done]. injection Heq as Heq.
    apply image_fname_inj in Heq; lia. }
  cbn [for_enumerate] in Hrun. rewrite bind_run, save_image_run in Hrun.
  fold p in Hrun. rewrite Hwa, Hget in Hrun.
  pose proof (stable_for_enumerate
                (fun w0 => files w0 !! p = Some data)
                (save_image E a savePath ep_idx n_eps n_imgs ep_title)
                (1 + Z.of_nat k + 1) (drop (S k) imgs)
                (fun i y => save_image_keeps_file E a p data _ _ _ _ _ i y)
                (put_file p data (log_request (ReqImage u) wa))) as Hpost.
  rewrite Hrun in Hpost. apply Hpost.
  cbn [files put_file]. apply lookup_insert_eq.
Qed.

End PersisterRepeat.

Lemma gallery_resume_is_noop_witness :
  save_images example_env example_args ["out"; "MyComic [7]"] 1 3 "A"
    ["http://h/a.png"]
    (put_file ["out"; "MyComic [7]"; "1 - 1 - A.png"] "old" empty_world)
  = (Ok tt, put_file ["out"; "MyComic [7]"; "1 - 1 - A.png"] "old" empty_world).
Proof.
  apply gallery_resume_is_noop. intros [|k] u Hk; [|done].
  injection Hk as <-. by vm_compute.
Defined.

Lemma save_episode_twice_witness :
  save_episode example_env example_args ["out"; "MyComic [7]"] 1 3 "A"
    example_gallery
    (save_episode example_env example_args ["out"; "MyComic [7]"] 1 3 "A"
       example_gallery empty_world).2
  = (Ok tt,
     (save_episode example_env example_args ["out"; "MyComic [7]"] 1 3 "A"
        example_gallery empty_world).2).
Proof.
  apply (save_episode_twice example_env example_args _ _ _ _ _ empty_world).
  by vm_compute.
Defined.

Lemma gallery_stores_every_image_witness :
  files (save_images example_env example_args ["out"; "MyComic [7]"] 1 3 "A"
           ["http://h/a.png"; "http://h/b.jpg"] empty_world).2
    !! ["out"; "MyComic [7]"; "1 - 2 - A.jpg"]
  = Some "bytes of http://h/b.jpg".
Proof.
  apply (gallery_stores_every_image example_env example_args
           ["out"; "MyComic [7]"] 1 3 "A"
           ["http://h/a.png"; "http://h/b.jpg"] empty_world _ 1%nat
           "http://h/b.jpg" "bytes of http://h/b.jpg").
  - lia.
  - by vm_compute.
  - reflexivity.
  - by vm_compute.
  - reflexivity.
Defined.

(** ** The episode loop: which pages are asked for *)

Section EpisodeRequests.

Context (E : env) (a : args).

Lemma episode_requests_app (l1 l2 : list request) :
  episode_requests (l1 ++ l2) = episode_requests l1 ++ episode_requests l2.
Proof. apply omap_app. Qed.

Lemma save_episode_no_page_request log savePath ep_idx n_eps ep_title doc :
  stable (fun w => episode_requests (requests w) = log)
    (save_episode E a savePath ep_idx n_eps ep_title doc).
Proof.
  unfold save_episode. destruct (parse_comic_images doc) as [|img imgs].
  - by intros w Hw.
  - apply stable_for_enumerate. intros i x w Hw. rewrite save_image_run.
    destruct (file_exists _ w); [done|].
    destruct (get_image E x); cbn [snd requests put_file log_request];
      by rewrite episode_requests_app, Hw, app_nil_r.
Qed.

Lemma download_loop_page_requests savePath n_eps start episodes w w1 :
  for_enumerate (download_episode E a savePath n_eps) start episodes w
  = (Ok tt, w1) ->
  episode_requests (requests w1)
  = episode_requests (requests w) ++ map ep_id episodes.
Proof.
  revert start w. induction episodes as [|ep eps IH]; intros start w.
  - intros [= <-]. by rewrite app_nil_r.
  - cbn [for_enumerate]. rewrite bind_run. unfold download_episode at 1.
    rewrite bind_run. unfold fetch_episode_content. rewrite bind_run.
    unfold send, lift.
    destruct (get_episode E (ep_id ep)) as [doc|e]; [|done].
    pose proof (save_episode_no_page_request
                  (episode_requests (requests w) ++ [ep_id ep])
                  savePath start n_eps (ep_title ep) doc
                  (log_request (ReqEpisode (ep_id ep)) w)) as Hsave.
    destruct (save_episode E a savePath start n_eps (ep_title ep) doc _)
      as [[[]|e] w'] eqn:Hrun; [|done].
    intros Hrest. rewrite (IH _ _ Hrest). cbn [snd] in Hsave.
    rewrite Hsave; [by rewrite <- app_assoc|].
    cbn [requests log_request]. by rewrite episode_requests_app.
Qed.

(** X20. When the episode loop of a series goes through, the page of every
    episode was asked for exactly once, in the order of the episode list. *)
Theorem episode_pages_requested_in_order savePath episodes w w1 :
  download_episodes E a savePath episodes w = (Ok tt, w1) ->
  episode_requests (requests w1)
  = episode_requests (requests w) ++ map ep_id episodes.
Proof. apply download_loop_page_requests. Qed.

End EpisodeRequests.

Lemma episode_pages_requested_in_order_witness :
  episode_requests
    (requests (download_episodes example_env example_args ["out"; "Other [8]"]
                 (entries example_series8) empty_world).2)
  = [2].
Proof.
  apply (episode_pages_requested_in_order example_env example_args
           ["out"; "Other [8]"] (entries example_series8) empty_world).
  by vm_compute.
Defined.

(** ** Running a series again with [force] *)

Section SettledEpisodes.

Context (E : env) (a : args) (savePath : path) (n_eps : Z).

#[local] Abbreviation settled := (episode_settled E a savePath n_eps).
#[local] Abbreviation step := (download_episode E a savePath n_eps).

Lemma settled_same_files ep_idx ep w w' :
  dirs w' = dirs w -> files w' = files w ->
  settled ep_idx ep w -> settled ep_idx ep w'.
Proof.
  intros Hd Hf. unfold episode_settled, file_exists. by rewrite Hd, Hf.
Qed.

Lemma download_episode_keeps_existing p ep_idx ep :
  stable (fun w => file_exists p w = true) (step ep_idx ep).
Proof.
  apply stable_bind; [|intros doc; apply save_episode_keeps_existing].
  apply stable_bind; [by intros w Hw | intros _; apply stable_lift].
Qed.

Lemma download_episode_keeps_text p data ep_idx ep :
  (forall t, p <> savePath ++ [prose_fname a ep_idx n_eps t]) ->
  stable (fun w => files w !! p = Some data) (step ep_idx ep).
Proof.
  intros Hp. apply stable_bind.
  - apply stable_bind; [by intros w Hw | intros _; apply stable_lift].
  - intros doc. unfold save_episode.
    destruct (parse_comic_images doc) as [|img imgs].
    + intros w Hw. cbn [snd save_novel write_file files put_file].
      unfold save_novel, write_file. cbn [snd files put_file].
      rewrite lookup_insert_ne; [done|]. intros Heq. by apply (Hp (ep_title ep)).
    + apply stable_for_enumerate. intros i x. apply save_image_keeps_file.
Qed.

Lemma download_episode_keeps_settled j ep j' ep' :
  0 <= j -> 0 <= j' -> j <> j' ->
  stable (settled j ep) (step j' ep').
Proof.
  intros Hj Hj' Hne w. unfold episode_settled.
  destruct (get_episode E (ep_id ep)) as [doc|]; [|done].
  destruct (parse_comic_images doc) as [|img imgs].
  - apply download_episode_keeps_text. intros t [_ Heq]%app_inj_2; [|done].
    injection Heq as Heq. apply prose_fname_inj in Heq; [lia | done | done].
  - intros Hw k u Hk. apply download_episode_keeps_existing. by apply Hw.
Qed.

Lemma download_episode_settles j ep w w' :
  step j ep w = (Ok tt, w') -> settled j ep w'.
Proof.
  unfold download_episode. rewrite bind_run. unfold fetch_episode_content.
  rewrite bind_run. unfold send, lift, episode_settled.
  destruct (get_episode E (ep_id ep)) as [doc|]; [|done].
  unfold save_episode. destruct (parse_comic_images doc) as [|img imgs].
  - unfold save_novel, write_file. intros [= <-]. cbn [files put_file].
    apply lookup_insert_eq.
  - intros Hrun k u Hk.
    by apply (images_exist_after E a _ _ _ _ _ 1 _ _ _ Hrun).
Qed.

Lemma loop_settles start (l : list episode) w w1 :
  0 <= start ->
  for_enumerate step start l w = (Ok tt, w1) ->
  forall k ep, l !! k = Some ep -> settled (start + Z.of_nat k) ep w1.
Proof.
  revert start w. induction l as [|ep0 l IH]; intros start w Hs Hrun k ep Hk;
    [done|].
  cbn [for_enumerate] in Hrun. rewrite bind_run in Hrun.
  destruct (step start ep0 w) as [[[]|e] w'] eqn:Hstep; [|done].
  destruct k as [|k].
  - injection Hk as <-. rewrite Z.add_0_r.
    apply download_episode_settles in Hstep.
    pose proof (for_enumerate_ranged (settled start ep0) step (start + 1) l)
      as Hkeep.
    assert (w1 = (for_enumerate step (start + 1) l w').2) as ->
      by by rewrite Hrun.
    apply Hkeep; [|done]. intros i x Hi.
    apply download_episode_keeps_settled; lia.
  - replace (start + Z.of_nat (S k)) with (start + 1 + Z.of_nat k) by lia.
    apply (IH (start + 1) w'); [lia | done | done].
Qed.

Lemma download_episode_settled_noop j ep w :
  settled j ep w ->
  step j ep w = (Ok tt, log_request (ReqEpisode (ep_id ep)) w).
Proof.
  unfold episode_settled, download_episode. rewrite bind_run.
  unfold fetch_episode_content. rewrite bind_run. unfold send, lift.
  destruct (get_episode E (ep_id ep)) as [doc|]; [|done].
  unfold save_episode. destruct (parse_comic_images doc) as [|img imgs].
  - intros Hfile. unfold save_novel, write_file, put_file. f_equal.
    cbn [dirs files requests log_request]. unfold log_request. f_equal.
    by apply insert_id.
  - intros Hall. by apply images_all_exist_noop.
Qed.

Lemma loop_settled_noop start (l : list episode) w :
  (forall k ep, l !! k = Some ep -> settled (start + Z.of_nat k) ep w) ->
  for_enumerate step start l w
  = (Ok tt, {| dirs := dirs w; files := files w;
               requests := requests w
                           ++ map (fun ep => ReqEpisode (ep_id ep)) l |}).
Proof.
  revert start w. induction l as [|ep l IH]; intros start w Hall.
  - cbn. destruct w. cbn. by rewrite app_nil_r.
  - cbn [for_enumerate]. rewrite bind_run.
    pose proof (Hall 0%nat ep eq_refl) as H0. rewrite Z.add_0_r in H0.
    rewrite (download_episode_settled_noop _ _ _ H0).
    rewrite IH.
    + cbn [dirs files requests log_request map]. by rewrite <- app_assoc.
    + intros k ep' Hk.
      replace (start + 1 + Z.of_nat k) with (start + Z.of_nat (S k)) by lia.
      apply (settled_same_files _ _ w); [done | done |]. by apply Hall.
Qed.

End SettledEpisodes.

Section ForcedRerun.

Context (E : env) (a : args).

(** X21. With [force], running again a series whose run went through goes through
    again, leaves every directory and every file content as it is, and asks
    for no image: the only requests it adds are the metadata query and the
    episode pages. *)
Theorem forced_rerun_keeps_files u w w1 :
  force a = true ->
  process_series E a u w = (Ok tt, w1) ->
  exists w2 added,
    process_series E a u w1 = (Ok tt, w2) /\
    dirs w2 = dirs w1 /\ files w2 = files w1 /\
    requests w2 = requests w1 ++ added /\
    Forall (fun r => forall img_url, r <> ReqImage img_url) added.
Proof.
  intros Hforce. rewrite !process_series_run.
  destruct (get_series_id u) as [seriesName|]; [|done].
  destruct (py_int E seriesName) as [n|].
  2:{ intros [= <-]. exists w, []. rewrite app_nil_r.
      split; [done|]. split; [done|]. split; [done|]. split; [done|].
      constructor. }
  destruct (post_graphql E n) as [ser|].
  2:{ intros [= <-]. eexists _, [ReqSeries n].
      split; [reflexivity|]. split; [done|]. split; [done|]. split; [done|].
      constructor; [done | constructor]. }
  cbv zeta. rewrite Hforce.
  set (savePath := save_path a (title ser) seriesName).
  set (w0 := if file_exists savePath w then log_request (ReqSeries n) w
             else make_dirs savePath (log_request (ReqSeries n) w)).
  assert (file_exists savePath w0 = true) as Hex0.
  { subst w0. destruct (file_exists savePath w) eqn:Hex; [done|].
    apply file_exists_made. }
  intros Hrun.
  assert (download_episodes E a savePath (entries ser) w0 = (Ok tt, w1))
    as Hrun0 by (subst w0; by destruct (file_exists savePath w)).
  clear Hrun.
  assert (file_exists savePath w1 = true) as Hex1.
  { pose proof (download_episodes_keeps_existing E a savePath savePath
                  (entries ser) w0 Hex0) as H. by rewrite Hrun0 in H. }
  rewrite Hex1. unfold download_episodes in *.
  rewrite loop_settled_noop.
  - eexists _, (ReqSeries n :: map (fun ep => ReqEpisode (ep_id ep)) (entries ser)).
    split; [reflexivity|]. cbn [dirs files requests log_request].
    split; [done|]. split; [done|]. split; [by rewrite <- app_assoc|].
    constructor; [done|]. apply Forall_forall.
    by intros r (ep & -> & _)%list_elem_of_fmap.
  - intros k ep Hk. apply (settled_same_files _ _ _ _ _ _ w1); [done | done |].
    by apply (loop_settles E a savePath _ 1 (entries ser) w0 w1).
Qed.

End ForcedRerun.

Lemma forced_rerun_keeps_files_witness :
  exists w2 added,
    process_series example_env
      {| url := ["8"]; force := true; restrict_characters := false;
         basePath := ["out"] |} "8"
      (process_series example_env
         {| url := ["8"]; force := true; restrict_characters := false;
            basePath := ["out"] |} "8" empty_world).2
    = (Ok tt, w2) /\
    dirs w2 = dirs (process_series example_env
         {| url := ["8"]; force := true; restrict_characters := false;
            basePath := ["out"] |} "8" empty_world).2 /\
    files w2 = files (process_series example_env
         {| url := ["8"]; force := true; restrict_characters := false;
            basePath := ["out"] |} "8" empty_world).2 /\
    requests w2 = requests (process_series example_env
         {| url := ["8"]; force := true; restrict_characters := false;
            basePath := ["out"] |} "8" empty_world).2 ++ added /\
    Forall (fun r => forall img_url, r <> ReqImage img_url) added.
Proof.
  apply (forced_rerun_keeps_files example_env _ "8" empty_world);
    [reflexivity | by vm_compute].
Defined.

(** ** Destination directories *)

Section Destinations.

Context (a : args).

Lemma bracket_suffix_unique (s t d1 d2 : string) :
  count_char "[" d1 = 0%nat -> count_char "[" d2 = 0%nat ->
  s +:+ String "[" d1 = t +:+ String "[" d2 -> d1 = d2.
Proof.
  intros H1 H2. revert t. induction s as [|c s IH]; intros [|d t].
  - by intros [= ->].
  - rewrite app_cons. intros [= <- ->].
    rewrite count_char_app in H1. cbn in H1. lia.
  - rewrite app_cons. intros [= -> <-].
    rewrite count_char_app in H2. cbn in H2. lia.
  - rewrite !app_cons. intros [= -> Heq]. by apply (IH t).
Qed.

Lemma app_char_inj_r (s t : string) c :
  s +:+ String c "" = t +:+ String c "" -> s = t.
Proof.
  revert t. induction s as [|d s IH]; intros [|e t]; rewrite ?app_cons.
  - done.
  - intros [= <- Heq]. by destruct t.
  - intros [= -> Heq]. by destruct s.
  - intros [= -> Heq]. f_equal. by apply IH.
Qed.

(** X22. Two destination directories coincide only for identifiers that are equal
    once sanitized, whatever the titles, as long as the identifiers contain
    no opening bracket; numeric identifiers that differ therefore never
    share a destination. *)
Theorem destinations_differ (name1 name2 id1 id2 : string) :
  count_char "[" id1 = 0%nat -> count_char "[" id2 = 0%nat ->
  save_path a name1 id1 = save_path a name2 id2 ->
  check_path id1 true (restrict_characters a)
  = check_path id2 true (restrict_characters a) /\
  (all_chars is_digit id1 = true -> all_chars is_digit id2 = true ->
   id1 = id2).
Proof.
  intros H1 H2 Heq. unfold save_path in Heq.
  apply app_inv_head in Heq. injection Heq as Heq.
  rewrite !check_path_app in Heq.
  assert (forall fat, check_path " [" true fat = String " " (String "[" "") /\
                      check_path "]" true fat = "]") as Hlit
    by (by intros []).
  destruct (Hlit (restrict_characters a)) as [Hopen Hclose].
  rewrite Hopen, Hclose in Heq.
  change (String " " (String "[" "") +:+ ?r)
    with (String " " "" +:+ String "[" r) in Heq.
  rewrite <- !app_assoc_str in Heq.
  assert (check_path id1 true (restrict_characters a)
          = check_path id2 true (restrict_characters a)) as Hids.
  { apply bracket_suffix_unique in Heq.
    - by apply app_char_inj_r in Heq.
    - rewrite count_char_app, count_char_check_path, H1.
      by destruct (restrict_characters a).
    - rewrite count_char_app, count_char_check_path, H2.
      by destruct (restrict_characters a). }
  split; [done|]. intros Hd1 Hd2.
  by rewrite !check_path_digits in Hids.
Qed.

End Destinations.

Lemma destinations_differ_witness :
  save_path example_args "A [7]" "8" <> save_path example_args "A" "7".
Proof.
  intros Heq.
  destruct (destinations_differ example_args "A [7]" "A" "8" "7"
              eq_refl eq_refl Heq) as [_ Hids].
  discriminate (Hids eq_refl eq_refl).
Defined.

(** ** A failing image request *)

Section ImageFailure.

Context (E : env) (a : args).

(** X23. In a gallery, an image that is not there yet and whose request fails
    ends the loop with that failure: the request is logged, no file is
    written for it, and the images after it are not looked at. *)
Theorem image_failure_ends_gallery
    savePath ep_idx n_eps ep_title pre img_url post w w1 e :
  let imgs := pre ++ img_url :: post in
  for_enumerate (save_image E a savePath ep_idx n_eps (len imgs) ep_title)
    1 pre w = (Ok tt, w1) ->
  file_exists
    (savePath ++
       [image_fname a ep_idx n_eps (len pre + 1) (len imgs) ep_title img_url])
    w1 = false ->
  get_image E img_url = Raise e ->
  save_images E a savePath ep_idx n_eps ep_title imgs w
  = (Raise e, log_request (ReqImage img_url) w1).
Proof.
  intros imgs Hpre Hex Hget.
  pose proof (save_images_at E a savePath ep_idx n_eps ep_title pre img_url
                post w w1 Hpre) as Hat.
  cbv zeta in Hat. rewrite save_image_run in Hat. subst imgs.
  by rewrite Hat, Hex, Hget.
Qed.

End ImageFailure.

Lemma image_failure_ends_gallery_witness :
  save_images
    {| py_int := fun _ => None;
       post_graphql := fun _ => Raise RequestException;
       get_episode := fun _ => Raise RequestException;
       get_image := fun _ => Raise RequestException |}
    example_args ["out"; "d"] 1 3 "A" ["http://h/a.png"; "http://h/b.jpg"]
    empty_world
  = (Raise RequestException,
     log_request (ReqImage "http://h/a.png") empty_world).
Proof.
  apply (image_failure_ends_gallery _ example_args ["out"; "d"] 1 3 "A"
           [] "http://h/a.png" ["http://h/b.jpg"] empty_world empty_world);
    [reflexivity | by vm_compute | reflexivity].
Defined.

Lemma get_series_id_fails_iff_witness :
  get_series_id "https://tapas.io/Erma" = Raise IndexError.
Proof.
  apply (proj2 (get_series_id_fails_iff "https://tapas.io/Erma" IndexError)).
  repeat split; reflexivity.
Defined.

Lemma parse_novel_text_empty_iff_witness :
  parse_novel_text {| content_imgs := []; body_paras := [""; ""] |} = "".
Proof.
  apply (proj2 (parse_novel_text_empty_iff
                  {| content_imgs := []; body_paras := [""; ""] |})).
  by repeat constructor.
Defined.

Lemma run_only_adds_witness :
  file_exists ["home"; "notes.txt"]
    (main example_env example_args
       (put_file ["home"; "notes.txt"] "mine" empty_world)).2 = true.
Proof.
  apply (proj2 (run_only_adds example_env example_args
                  (put_file ["home"; "notes.txt"] "mine" empty_world))).
  by vm_compute.
Defined.

(** ** What the episode loop leaves at the path of an image *)

Section GalleryContent.

Context (E : env) (a : args).

Lemma file_exists_same_view p w w' :
  files w' !! p = files w !! p -> dirs w' = dirs w ->
  file_exists p w' = file_exists p w.
Proof. intros Hf Hd. unfold file_exists. by rewrite Hf, Hd. Qed.

Lemma save_image_elsewhere p v D savePath ep_idx n_eps n_imgs ep_title i x :
  p <> savePath ++ [image_fname a ep_idx n_eps i n_imgs ep_title x] ->
  stable (fun w => files w !! p = v /\ dirs w = D)
    (save_image E a savePath ep_idx n_eps n_imgs ep_title i x).
Proof.
  intros Hp w [Hf Hd]. rewrite save_image_run.
  destruct (file_exists _ w); [done|].
  destruct (get_image E x); [|done].
  cbn [snd files dirs put_file log_request].
  by rewrite lookup_insert_ne.
Qed.

Lemma download_episode_elsewhere p v D savePath n_eps j ep :
  (forall t, p <> savePath ++ [prose_fname a j n_eps t]) ->
  (forall i m t x, 0 <= i -> p <> savePath ++ [image_fname a j n_eps i m t x]) ->
  stable (fun w => files w !! p = v /\ dirs w = D)
    (download_episode E a savePath n_eps j ep).
Proof.
  intros Hprose Himage. apply stable_bind.
  - apply stable_bind; [by intros w Hw | intros _; apply stable_lift].
  - intros doc. unfold save_episode.
    destruct (parse_comic_images doc) as [|img imgs].
    + intros w [Hf Hd]. unfold save_novel, write_file.
      cbn [snd files dirs put_file]. by rewrite lookup_insert_ne.
    + apply for_enumerate_ranged. intros i x Hi.
      apply save_image_elsewhere, Himage. lia.
Qed.

Lemma save_images_result_at savePath ep_idx n_eps ep_title imgs w w1 j u :
  0 <= ep_idx ->
  save_images E a savePath ep_idx n_eps ep_title imgs w = (Ok tt, w1) ->
  imgs !! j = Some u ->
  dirs w1 = dirs w /\
  if file_exists
       (savePath ++
          [image_fname a ep_idx n_eps (1 + Z.of_nat j) (len imgs) ep_title u]) w
  then
    files w1
      !! (savePath ++
            [image_fname a ep_idx n_eps (1 + Z.of_nat j) (len imgs) ep_title u])
    = files w
        !! (savePath ++
              [image_fname a ep_idx n_eps (1 + Z.of_nat j) (len imgs) ep_title u])
  else
    exists data,
      get_image E u = Ok data /\
      files w1
        !! (savePath ++
              [image_fname a ep_idx n_eps (1 + Z.of_nat j) (len imgs) ep_title u])
      = Some data.
Proof.
  intros He Hrun Hj. unfold save_images in Hrun.
  set (n_imgs := len imgs) in *.
  set (p := savePath ++
              [image_fname a ep_idx n_eps (1 + Z.of_nat j) n_imgs ep_title u])
    in *.
  set (body := save_image E a savePath ep_idx n_eps n_imgs ep_title) in *.
  assert (forall v D start (l : list string),
            (forall i, start <= i < start + len l -> i <> 1 + Z.of_nat j) ->
            0 <= start ->
            stable (fun w0 => files w0 !! p = v /\ dirs w0 = D)
              (for_enumerate body start l)) as Hother.
  { intros v D start l Hne Hs. apply for_enumerate_ranged. intros i x Hi.
    apply save_image_elsewhere.
    intros [_ Heq]%app_inj_2; [|done]. injection Heq as Heq.
    apply image_fname_inj in Heq; [|lia..]. apply (Hne i); lia. }
  pose proof (lookup_lt_Some _ _ _ Hj) as Hlt.
  rewrite <- (take_drop_middle imgs j u Hj) in Hrun.
  rewrite for_enumerate_app in Hrun.
  assert (len (take j imgs) = Z.of_nat j) as Hlen
    by (unfold len; rewrite length_take; lia).
  rewrite Hlen in Hrun.
  pose proof (Hother (files w !! p) (dirs w) 1 (take j imgs)
                ltac:(rewrite Hlen; lia) ltac:(lia) w (conj eq_refl eq_refl))
    as Hpre.
  destruct (for_enumerate body 1 (take j imgs) w) as [[[]|e] wa]; [|done].
  cbn [snd] in Hpre. destruct Hpre as [Hfa Hda].
  rewrite <- (file_exists_same_view p w wa Hfa Hda).
  cbn [for_enumerate] in Hrun. rewrite bind_run in Hrun.
  unfold body at 1 in Hrun. rewrite save_image_run in Hrun. fold p in Hrun.
  destruct (file_exists p wa).
  - pose proof (Hother (files w !! p) (dirs w) (1 + Z.of_nat j + 1)
                  (drop (S j) imgs) ltac:(lia) ltac:(lia) wa (conj Hfa Hda))
      as Hpost.
    rewrite Hrun in Hpost. destruct Hpost as [Hf1 Hd1]. done.
  - destruct (get_image E u) as [data|]; [|done].
    pose proof (Hother (Some data) (dirs w) (1 + Z.of_nat j + 1)
                  (drop (S j) imgs) ltac:(lia) ltac:(lia)
                  (put_file p data (log_request (ReqImage u) wa))) as Hpost.
    rewrite Hrun in Hpost. destruct Hpost as [Hf1 Hd1].
    + cbn [files dirs put_file log_request]. by rewrite lookup_insert_eq.
    + split; [done|]. by exists data.
Qed.

Lemma loop_result_at savePath n_eps start (l : list episode) w w1 k ep doc j u :
  0 <= start ->
  for_enumerate (download_episode E a savePath n_eps) start l w = (Ok tt, w1) ->
  l !! k = Some ep ->
  get_episode E (ep_id ep) = Ok doc ->
  parse_comic_images doc !! j = Some u ->
  dirs w1 = dirs w /\
  if file_exists
       (savePath ++
          [image_fname a (start + Z.of_nat k) n_eps (1 + Z.of_nat j)
             (len (parse_comic_images doc)) (ep_title ep) u]) w
  then
    files w1
      !! (savePath ++
            [image_fname a (start + Z.of_nat k) n_eps (1 + Z.of_nat j)
               (len (parse_comic_images doc)) (ep_title ep) u])
    = files w
        !! (savePath ++
              [image_fname a (start + Z.of_nat k) n_eps (1 + Z.of_nat j)
                 (len (parse_comic_images doc)) (ep_title ep) u])
  else
    exists data,
      get_image E u = Ok data /\
      files w1
        !! (savePath ++
              [image_fname a (start + Z.of_nat k) n_eps (1 + Z.of_nat j)
                 (len (parse_comic_images doc)) (ep_title ep) u])
      = Some data.
Proof.
  intros Hs Hrun Hk Hget Hj.
  set (p := savePath ++
              [image_fname a (start + Z.of_nat k) n_eps (1 + Z.of_nat j)
                 (len (parse_comic_images doc)) (ep_title ep) u]) in *.
  set (step := download_episode E a savePath n_eps) in *.
  assert (forall v D s (l' : list episode),
            (forall i, s <= i < s + len l' -> i <> start + Z.of_nat k) ->
            0 <= s ->
            stable (fun w0 => files w0 !! p = v /\ dirs w0 = D)
              (for_enumerate step s l')) as Hother.
  { intros v D s l' Hne Hs'. apply for_enumerate_ranged. intros i x Hi.
    apply download_episode_elsewhere.
    - intros t [_ Heq]%app_inj_2; [|done]. injection Heq as Heq.
      apply image_prose_fname_inj in Heq; [|lia..]. apply (Hne i); lia.
    - intros i' m t x' Hi' [_ Heq]%app_inj_2; [|done]. injection Heq as Heq.
      apply image_fname_inj in Heq; [|lia..]. apply (Hne i); lia. }
  pose proof (lookup_lt_Some _ _ _ Hk) as Hlt.
  rewrite <- (take_drop_middle l k ep Hk) in Hrun.
  rewrite for_enumerate_app in Hrun.
  assert (len (take k l) = Z.of_nat k) as Hlen
    by (unfold len; rewrite length_take; lia).
  rewrite Hlen in Hrun.
  assert (forall i, start <= i < start + len (take k l) ->
                    i <> start + Z.of_nat k) as Hearlier
    by (rewrite Hlen; lia).
  pose proof (Hother (files w !! p) (dirs w) start (take k l)
                Hearlier Hs w (conj eq_refl eq_refl)) as Hpre.
  destruct (for_enumerate step start (take k l) w) as [[[]|e] wa]; [|done].
  cbn [snd] in Hpre. destruct Hpre as [Hfa Hda].
  rewrite <- (file_exists_same_view p w wa Hfa Hda).
  cbn [for_enumerate] in Hrun. rewrite bind_run in Hrun.
  unfold step at 1, download_episode in Hrun. rewrite bind_run in Hrun.
  unfold fetch_episode_content in Hrun. rewrite bind_run in Hrun.
  unfold send, lift in Hrun. rewrite Hget in Hrun.
  unfold save_episode in Hrun.
  destruct (parse_comic_images doc) as [|img imgs] eqn:Himgs; [done|].
  destruct (save_images E a savePath (start + Z.of_nat k) n_eps (ep_title ep)
              (img :: imgs) (log_request (ReqEpisode (ep_id ep)) wa))
    as [[[]|e] wb] eqn:Hsave; [|done].
  assert (0 <= start + Z.of_nat k) as Hidx by lia.
  destruct (save_images_result_at _ _ _ _ _ _ _ j u Hidx Hsave Hj)
    as [Hdb Hfb].
  fold p in Hfb. rewrite file_exists_log in Hfb.
  cbn [dirs files log_request] in Hdb, Hfb.
  assert (forall i, start + Z.of_nat k + 1 <= i
                      < start + Z.of_nat k + 1 + len (drop (S k) l) ->
                    i <> start + Z.of_nat k) as Hlater by lia.
  assert (0 <= start + Z.of_nat k + 1) as Hnext by lia.
  destruct (file_exists p wa).
  - pose proof (Hother (files w !! p) (dirs w) _ _ Hlater Hnext wb) as Hpost.
    rewrite Hrun in Hpost.
    destruct Hpost as [Hf1 Hd1]; [split; congruence | done].
  - destruct Hfb as (data & Hdata & Hfb).
    pose proof (Hother (Some data) (dirs w) _ _ Hlater Hnext wb) as Hpost.
    rewrite Hrun in Hpost. destruct Hpost as [Hf1 Hd1]; [split; congruence|].
    split; [done|]. by exists data.
Qed.

End GalleryContent.

(** ** The gate of a series and what passing it does *)

Section SeriesGate.

Context (E : env) (a : args).

Lemma ancestors_length (q s : path) :
  q ∈ ancestors s -> (length q <= length s)%nat.
Proof.
  revert q. induction s as [|name s IH]; intros q; cbn [ancestors].
  - intros ->%list_elem_of_singleton. done.
  - intros [->|Hq]%elem_of_cons; [simpl; lia|].
    apply list_elem_of_fmap in Hq as (q' & -> & Hq'). apply IH in Hq'.
    simpl. lia.
Qed.

Lemma file_exists_below_made savePath name w :
  file_exists (savePath ++ [name]) (make_dirs savePath w)
  = file_exists (savePath ++ [name]) w.
Proof.
  unfold file_exists. cbn [dirs files make_dirs]. f_equal.
  apply bool_decide_ext. rewrite elem_of_union, elem_of_list_to_set.
  split; [|by right]. intros [Hanc|]; [|done].
  apply ancestors_length in Hanc. rewrite length_app in Hanc. simpl in Hanc. lia.
Qed.

Lemma download_episodes_first_request dir ep rest w :
  ReqEpisode (ep_id ep)
  ∈ requests (download_episodes E a (basePath a ++ [dir]) (ep :: rest) w).2.
Proof.
  set (P := fun w' : world => ReqEpisode (ep_id ep) ∈ requests w').
  assert (forall r w', P w' -> P (log_request r w')) as P_log.
  { intros r w' Hw'. unfold P. cbn [requests log_request].
    apply elem_of_app. by left. }
  assert (forall d f data w',
            P w' -> P (put_file (basePath a ++ [d; f]) data w')) as P_put
    by done.
  unfold download_episodes. cbn [for_enumerate]. rewrite bind_run.
  unfold download_episode at 1. rewrite bind_run.
  unfold fetch_episode_content. rewrite bind_run. unfold send, lift.
  assert (P (log_request (ReqEpisode (ep_id ep)) w)) as Hstart.
  { unfold P. cbn [requests log_request]. apply elem_of_app. right.
    by apply list_elem_of_singleton. }
  destruct (get_episode E (ep_id ep)) as [doc|]; [|done].
  pose proof (save_episode_invariant E a P P_log P_put dir 1
                (len (ep :: rest)) (ep_title ep) doc _ Hstart) as Hsaved.
  destruct (save_episode E a (basePath a ++ [dir]) 1 (len (ep :: rest))
              (ep_title ep) doc (log_request (ReqEpisode (ep_id ep)) w))
    as [[[]|e] wb]; [|done].
  apply (stable_for_enumerate P); [|done].
  intros i ep'. apply stable_bind.
  - apply stable_bind; [intros w' Hw'; by apply P_log|].
    intros _. apply stable_lift.
  - intros doc'. by apply save_episode_invariant.
Qed.

(** C5. Once the metadata of a series is fetched: an existing destination
    without [force] ends the series at once, with nothing but the metadata
    request added to the world.  An existing destination with [force], and a
    missing destination (which is created first), lead into the episode loop:
    the page of the first episode is requested whatever happens next, and
    when the series goes through, every episode's page was fetched, the text
    file of every prose episode holds the parsed text whatever it held
    before, every image file that was missing holds the bytes its URL
    answered with, and every image path that existed holds what it held. *)
Theorem series_gate u seriesName n ser w :
  get_series_id u = Ok seriesName ->
  py_int E seriesName = Some n ->
  post_graphql E n = Ok ser ->
  let savePath := save_path a (title ser) seriesName in
  let n_eps := len (entries ser) in
  let w1 := log_request (ReqSeries n) w in
  (file_exists savePath w = true -> force a = false ->
   process_series E a u w = (Ok tt, w1)) /\
  (file_exists savePath w = true -> force a = true ->
   process_series E a u w
   = download_episodes E a savePath (entries ser) w1) /\
  (file_exists savePath w = false ->
   process_series E a u w
   = download_episodes E a savePath (entries ser) (make_dirs savePath w1) /\
   file_exists savePath (make_dirs savePath w1) = true) /\
  ((file_exists savePath w = true -> force a = true) ->
   (forall ep rest,
       entries ser = ep :: rest ->
       ReqEpisode (ep_id ep) ∈ requests (process_series E a u w).2) /\
   (forall w',
       process_series E a u w = (Ok tt, w') ->
       file_exists savePath w' = true /\
       forall k ep,
         entries ser !! k = Some ep ->
         exists doc,
           get_episode E (ep_id ep) = Ok doc /\
           (parse_comic_images doc = [] ->
            files w'
              !! (savePath ++
                    [prose_fname a (1 + Z.of_nat k) n_eps (ep_title ep)])
            = Some (parse_novel_text doc)) /\
           (forall j img_url,
               parse_comic_images doc !! j = Some img_url ->
               let fpath :=
                 savePath ++
                   [image_fname a (1 + Z.of_nat k) n_eps (1 + Z.of_nat j)
                      (len (parse_comic_images doc)) (ep_title ep) img_url] in
               if file_exists fpath w
               then files w' !! fpath = files w !! fpath
               else exists data,
                   get_image E img_url = Ok data /\
                   files w' !! fpath = Some data))).
Proof.
  intros Hid Hint Hpost savePath n_eps w1.
  pose proof (process_series_run E a u w) as Hseries.
  rewrite Hid, Hint, Hpost in Hseries. cbv zeta in Hseries.
  fold savePath w1 in Hseries.
  split; [|split; [|split]].
  - intros Hex Hforce. by rewrite Hseries, Hex, Hforce.
  - intros Hex Hforce. by rewrite Hseries, Hex, Hforce.
  - intros Hex. rewrite Hseries, Hex. split; [done | apply file_exists_made].
  - intros Hopen.
    set (w0 := if file_exists savePath w then w1 else make_dirs savePath w1).
    assert (process_series E a u w
            = download_episodes E a savePath (entries ser) w0) as Hloop.
    { rewrite Hseries. subst w0.
      destruct (file_exists savePath w); [by rewrite Hopen | done]. }
    assert (file_exists savePath w0 = true) as Hex0.
    { subst w0. destruct (file_exists savePath w) eqn:Hex; [done|].
      apply file_exists_made. }
    assert (forall name,
              file_exists (savePath ++ [name]) w0
              = file_exists (savePath ++ [name]) w /\
              files w0 !! (savePath ++ [name])
              = files w !! (savePath ++ [name])) as Hview.
    { intros name. subst w0 w1.
      destruct (file_exists savePath w);
        by rewrite ?file_exists_below_made, ?file_exists_log. }
    rewrite Hloop. split.
    + intros ep rest Hentries. rewrite Hentries.
      apply download_episodes_first_request.
    + intros w' Hrun. split.
      { pose proof (download_episodes_keeps_existing E a savePath savePath
                      (entries ser) w0 Hex0) as H. by rewrite Hrun in H. }
      intros k ep Hk.
      pose proof (loop_settles E a savePath n_eps 1 (entries ser) w0 w'
                    ltac:(lia) Hrun k ep Hk) as Hsettled.
      unfold episode_settled in Hsettled.
      destruct (get_episode E (ep_id ep)) as [doc|] eqn:Hget; [|done].
      exists doc. split; [done|]. split.
      * intros Himgs. by rewrite Himgs in Hsettled.
      * intros j img_url Hj fpath. subst fpath.
        destruct (loop_result_at E a savePath n_eps 1 (entries ser) w0 w'
                    k ep doc j img_url ltac:(lia) Hrun Hk Hget Hj)
          as [_ Hat].
        destruct (Hview (image_fname a (1 + Z.of_nat k) n_eps
                           (1 + Z.of_nat j) (len (parse_comic_images doc))
                           (ep_title ep) img_url)) as [-> ->] in Hat.
        exact Hat.
Qed.

End SeriesGate.

Lemma series_gate_witness :
  process_series example_env example_args "7"
    (make_dirs ["out"; "MyComic [7]"] empty_world)
  = (Ok tt, log_request (ReqSeries 7)
              (make_dirs ["out"; "MyComic [7]"] empty_world)) /\
  process_series example_env example_args "7" empty_world
  = download_episodes example_env example_args ["out"; "MyComic [7]"]
      (entries example_series7)
      (make_dirs ["out"; "MyComic [7]"]
         (log_request (ReqSeries 7) empty_world)) /\
  files (process_series example_env
           {| url := ["8"]; force := true; restrict_characters := false;
              basePath := ["out"] |} "8"
           (put_file ["out"; "Other [8]"; "1 - B.txt"] "old"
              (make_dirs ["out"; "Other [8]"] empty_world))).2
    !! ["out"; "Other [8]"; "1 - B.txt"]
  = Some (parse_novel_text example_text).
Proof.
  split; [|split].
  - apply (series_gate example_env example_args "7" "7" 7 example_series7
             (make_dirs ["out"; "MyComic [7]"] empty_world)
             eq_refl eq_refl eq_refl);
      [by vm_compute | reflexivity].
  - apply (series_gate example_env example_args "7" "7" 7 example_series7
             empty_world eq_refl eq_refl eq_refl).
    by vm_compute.
  - set (forced := {| url := ["8"]; force := true;
                      restrict_characters := false; basePath := ["out"] |}).
    set (w := put_file ["out"; "Other [8]"; "1 - B.txt"] "old"
                (make_dirs ["out"; "Other [8]"] empty_world)).
    destruct (series_gate example_env forced "8" "8" 8 example_series8 w
                eq_refl eq_refl eq_refl) as (_ & _ & _ & Hopen).
    destruct (Hopen ltac:(reflexivity)) as [_ Hdone].
    destruct (Hdone (process_series example_env forced "8" w).2
                ltac:(by vm_compute)) as [_ Hepisodes].
    destruct (Hepisodes 0%nat {| ep_id := 2; ep_title := "B" |} eq_refl)
      as (doc & Hget & Hprose & _).
    injection Hget as <-. exact (Hprose eq_refl).
Defined.
